(** * A static-file HTTP server, in two variants

    Shallow embedding of
    - [multithreaded_webserver_testing.py]: one thread per connection running
      [handle_client], with [safe_path] and [send_error];
    - [socketwebserver.py]: the single-threaded accept loop, whose body is
      embedded as [Single.serve_connection].

    Python [str] values are lists of code points, [bytes] values are lists of
    [Byte.byte].  The library functions both servers call ([str.split],
    [str.lstrip], [str.splitlines], the UTF-8 and ISO-8859-1 codecs,
    [urllib.parse.unquote], [posixpath.join], [posixpath.normpath]) are
    embedded from their CPython definitions.  The file system, the MIME
    table, the clock and the network are the fields of a [World]. *)

From Stdlib Require Import List NArith Bool Lia String Ascii Arith.
From Stdlib.Strings Require Import Byte.
From Stdlib Require Import DecimalString.
Import ListNotations.

Local Open Scope N_scope.

(** ** Python strings and bytes *)

Definition char := N.
Definition str := list char.
Definition bytes := list byte.

(** A literal of the source, e.g. [lit "GET"]. *)
Definition lit (s : string) : str := map N_of_ascii (list_ascii_of_string s).

Definition CR : char := 13.
Definition LF : char := 10.
Definition CRLF : str := [CR; LF].
Definition SLASH : char := 47.
Definition PERCENT : char := 37.
Definition QUESTION : char := 63.

Fixpoint str_eqb (a b : str) : bool :=
  match a, b with
  | [], [] => true
  | x :: a', y :: b' => (x =? y) && str_eqb a' b'
  | _, _ => false
  end.

(** [s.startswith(p)] *)
Fixpoint startswith (s p : str) {struct p} : bool :=
  match p, s with
  | [], _ => true
  | y :: p', x :: s' => (x =? y) && startswith s' p'
  | _ :: _, [] => false
  end.

(** [s.lstrip(c)] for a one-character set: every leading [c] is removed. *)
Fixpoint lstrip (c : char) (s : str) : str :=
  match s with
  | x :: s' => if x =? c then lstrip c s' else s
  | [] => []
  end.

(** [sep.join(parts)] *)
Fixpoint join (sep : str) (parts : list str) : str :=
  match parts with
  | [] => []
  | [p] => p
  | p :: rest => p ++ sep ++ join sep rest
  end.

(** [s.split(c)] for a one-character separator: never the empty list. *)
Fixpoint split_char_go (c : char) (cur : str) (s : str) : list str :=
  match s with
  | [] => [rev cur]
  | x :: s' =>
      if x =? c then rev cur :: split_char_go c [] s'
      else split_char_go c (x :: cur) s'
  end.

Definition split_char (c : char) (s : str) : list str := split_char_go c [] s.

(** [s.split(c, 1)]: at most one cut, at the first [c]. *)
Fixpoint split_char_once_go (c : char) (cur : str) (s : str) : list str :=
  match s with
  | [] => [rev cur]
  | x :: s' =>
      if x =? c then [rev cur; s']
      else split_char_once_go c (x :: cur) s'
  end.

Definition split_char_once (c : char) (s : str) : list str :=
  split_char_once_go c [] s.

(** [s.split("\r\n")]: cuts at each CR LF pair, left to right. *)
Fixpoint split_crlf_go (cur : str) (s : str) : list str :=
  match s with
  | [] => [rev cur]
  | x :: s' =>
      match s' with
      | y :: s'' =>
          if (x =? CR) && (y =? LF) then rev cur :: split_crlf_go [] s''
          else split_crlf_go (x :: cur) s'
      | [] => [rev (x :: cur)]
      end
  end.

Definition split_crlf (s : str) : list str := split_crlf_go [] s.

(** [str.isspace] for one code point (CPython's [_PyUnicode_IsWhitespace]). *)
Definition is_space (c : char) : bool :=
  ((9 <=? c) && (c <=? 13)) || ((28 <=? c) && (c <=? 32))
  || (c =? 133) || (c =? 160) || (c =? 5760)
  || ((8192 <=? c) && (c <=? 8202))
  || (c =? 8232) || (c =? 8233) || (c =? 8239) || (c =? 8287) || (c =? 12288).

(** [s.split()] with no argument: the maximal runs of non-whitespace. *)
Fixpoint split_ws_go (cur : str) (s : str) : list str :=
  match s with
  | [] => match cur with [] => [] | _ => [rev cur] end
  | x :: s' =>
      if is_space x
      then match cur with
           | [] => split_ws_go [] s'
           | _ => rev cur :: split_ws_go [] s'
           end
      else split_ws_go (x :: cur) s'
  end.

Definition split_ws (s : str) : list str := split_ws_go [] s.

(** Line boundaries of [str.splitlines] (CPython's [_PyUnicode_IsLinebreak]). *)
Definition is_linebreak (c : char) : bool :=
  ((10 <=? c) && (c <=? 13)) || ((28 <=? c) && (c <=? 30))
  || (c =? 133) || (c =? 8232) || (c =? 8233).

(** [s.splitlines()]: CR LF counts as one boundary; no trailing empty line. *)
Fixpoint splitlines_go (cur : str) (s : str) : list str :=
  match s with
  | [] => match cur with [] => [] | _ => [rev cur] end
  | x :: s' =>
      if is_linebreak x
      then rev cur ::
           match s' with
           | y :: s'' =>
               if (x =? CR) && (y =? LF) then splitlines_go [] s''
               else splitlines_go [] s'
           | [] => []
           end
      else splitlines_go (x :: cur) s'
  end.

Definition splitlines (s : str) : list str := splitlines_go [] s.

(** [str(n)] and the [{n}] of an f-string, for a non-negative integer. *)
Definition str_of_N (n : N) : str := lit (NilEmpty.string_of_uint (N.to_uint n)).

(** [len(b)] *)
Definition len {A} (l : list A) : N := N.of_nat (List.length l).

(** ** Codecs *)

Definition byte_of_N (n : N) : byte :=
  match Byte.of_N n with Some b => b | None => x00 end.

Definition is_latin1 (s : str) : bool := forallb (fun c => c <? 256) s.

(** [s.encode("iso-8859-1")]: fails (UnicodeEncodeError) above U+00FF. *)
Definition encode_latin1 (s : str) : option bytes :=
  if is_latin1 s then Some (map byte_of_N s) else None.

Inductive errors := Strict | Ignore | Replace.

Definition is_cont (b : N) : bool := (128 <=? b) && (b <=? 191).

(** One step of CPython's UTF-8 decoder on [b0 :: rest]: a scalar value and
    the number of bytes it took, or an error covering the given number of
    bytes (the longest prefix that could still have started a valid
    sequence, or everything that is left when the input ends early). *)
Inductive utf8_item :=
| Scalar (cp : N) (used : nat)
| Malformed (used : nat).

Definition utf8_step (b0 : N) (rest : list N) : utf8_item :=
  if b0 <? 128 then Scalar b0 1
  else if b0 <? 194 then Malformed 1
  else if b0 <? 224 then
    match rest with
    | [] => Malformed 1
    | b1 :: _ =>
        if is_cont b1 then Scalar ((b0 - 192) * 64 + (b1 - 128)) 2
        else Malformed 1
    end
  else if b0 <? 240 then
    match rest with
    | [] => Malformed 1
    | b1 :: rest1 =>
        if negb (is_cont b1) || (if b1 <? 160 then b0 =? 224 else b0 =? 237)
        then Malformed 1
        else match rest1 with
             | [] => Malformed 2
             | b2 :: _ =>
                 if is_cont b2
                 then Scalar ((b0 - 224) * 4096 + (b1 - 128) * 64 + (b2 - 128)) 3
                 else Malformed 2
             end
    end
  else if b0 <? 245 then
    match rest with
    | [] => Malformed 1
    | b1 :: rest1 =>
        if negb (is_cont b1) || (if b1 <? 144 then b0 =? 240 else b0 =? 244)
        then Malformed 1
        else match rest1 with
             | [] => Malformed 2
             | b2 :: rest2 =>
                 if negb (is_cont b2) then Malformed 2
                 else match rest2 with
                      | [] => Malformed 3
                      | b3 :: _ =>
                          if is_cont b3
                          then Scalar ((b0 - 240) * 262144 + (b1 - 128) * 4096
                                       + (b2 - 128) * 64 + (b3 - 128)) 4
                          else Malformed 3
                      end
             end
    end
  else Malformed 1.

Definition REPLACEMENT : char := 65533.

Fixpoint utf8_decode_go (fuel : nat) (e : errors) (bs : list N) : option str :=
  match bs with
  | [] => Some []
  | b0 :: rest =>
      match fuel with
      | O => Some []
      | S fuel' =>
          match utf8_step b0 rest with
          | Scalar cp used =>
              option_map (cons cp) (utf8_decode_go fuel' e (skipn (used - 1) rest))
          | Malformed used =>
              match e with
              | Strict => None
              | Ignore => utf8_decode_go fuel' e (skipn (used - 1) rest)
              | Replace =>
                  option_map (cons REPLACEMENT)
                             (utf8_decode_go fuel' e (skipn (used - 1) rest))
              end
          end
      end
  end.

(** [b.decode("utf-8", errors)]; [None] is UnicodeDecodeError. *)
Definition utf8_decode (e : errors) (b : bytes) : option str :=
  utf8_decode_go (List.length b) e (map Byte.to_N b).

Definition utf8_encode_char (c : char) : option (list N) :=
  if c <? 128 then Some [c]
  else if c <? 2048 then Some [192 + c / 64; 128 + c mod 64]
  else if c <? 65536 then
    if (55296 <=? c) && (c <=? 57343) then None
    else Some [224 + c / 4096; 128 + (c / 64) mod 64; 128 + c mod 64]
  else if c <? 1114112 then
    Some [240 + c / 262144; 128 + (c / 4096) mod 64;
          128 + (c / 64) mod 64; 128 + c mod 64]
  else None.

(** [s.encode("utf-8")]; [None] is UnicodeEncodeError (a lone surrogate). *)
Fixpoint utf8_encode (s : str) : option bytes :=
  match s with
  | [] => Some []
  | c :: s' =>
      match utf8_encode_char c, utf8_encode s' with
      | Some bs, Some tl => Some (map byte_of_N bs ++ tl)
      | _, _ => None
      end
  end.

(** Universal-newline translation of a text-mode read: CR LF and a lone CR
    both become LF. *)
Fixpoint translate_newlines (s : str) : str :=
  match s with
  | [] => []
  | x :: s' =>
      if x =? CR
      then LF :: match s' with
                 | y :: s'' => if y =? LF then translate_newlines s''
                               else translate_newlines s'
                 | [] => []
                 end
      else x :: translate_newlines s'
  end.

Definition utf8_decode_N (e : errors) (bs : list N) : option str :=
  utf8_decode_go (List.length bs) e bs.

(** ** urllib.parse.unquote *)

Definition hex_value (c : char) : option N :=
  if (48 <=? c) && (c <=? 57) then Some (c - 48)
  else if (65 <=? c) && (c <=? 70) then Some (c - 55)
  else if (97 <=? c) && (c <=? 102) then Some (c - 87)
  else None.

(** [unquote_to_bytes] on an ASCII run: [%XX] with two hex digits becomes the
    byte, any other [%] stays as it is. *)
Fixpoint unquote_to_bytes (s : list N) : list N :=
  match s with
  | [] => []
  | c :: s' =>
      if c =? PERCENT
      then match s' with
           | h :: l :: s'' =>
               match hex_value h, hex_value l with
               | Some a, Some b => (16 * a + b) :: unquote_to_bytes s''
               | _, _ => c :: unquote_to_bytes s'
               end
           | _ => c :: unquote_to_bytes s'
           end
      else c :: unquote_to_bytes s'
  end.

(** The decoded text of one ASCII run ([errors='replace']). *)
Definition unquote_run (run : list N) : str :=
  match utf8_decode_N Replace (unquote_to_bytes run) with
  | Some s => s
  | None => []
  end.

(** Maximal ASCII runs are unquoted and decoded; other characters are kept.
    [run] holds the current ASCII run, last character first. *)
Fixpoint unquote_parts (run : list N) (s : str) : str :=
  match s with
  | [] => unquote_run (rev run)
  | c :: s' =>
      if c <? 128 then unquote_parts (c :: run) s'
      else unquote_run (rev run) ++ c :: unquote_parts [] s'
  end.

(** [unquote(s)] *)
Definition unquote (s : str) : str :=
  if existsb (N.eqb PERCENT) s then unquote_parts [] s else s.

(** ** posixpath *)

Definition endswith_char (s : str) (c : char) : bool :=
  match rev s with x :: _ => x =? c | [] => false end.

Definition is_empty {A} (l : list A) : bool :=
  match l with [] => true | _ => false end.

(** [os.path.join(a, b)] *)
Definition path_join (a b : str) : str :=
  if startswith b [SLASH] then b
  else if is_empty a || endswith_char a SLASH then a ++ b
  else a ++ [SLASH] ++ b.

Definition DOT : str := [46].
Definition DOTDOT : str := [46; 46].

(** The loop of [normpath] over the components; [new_comps] is the list
    built so far, in order. *)
Fixpoint norm_comps (initial_slashes : nat) (new_comps comps : list str)
  : list str :=
  match comps with
  | [] => new_comps
  | comp :: rest =>
      if str_eqb comp [] || str_eqb comp DOT
      then norm_comps initial_slashes new_comps rest
      else if negb (str_eqb comp DOTDOT)
              || ((initial_slashes =? 0)%nat && is_empty new_comps)
              || (negb (is_empty new_comps)
                  && str_eqb (last new_comps []) DOTDOT)
      then norm_comps initial_slashes (new_comps ++ [comp]) rest
      else if negb (is_empty new_comps)
      then norm_comps initial_slashes (removelast new_comps) rest
      else norm_comps initial_slashes new_comps rest
  end.

(** [os.path.normpath(path)] *)
Definition normpath (path : str) : str :=
  if is_empty path then DOT
  else
    let initial_slashes :=
      if startswith path [SLASH]
      then if startswith path [SLASH; SLASH]
              && negb (startswith path [SLASH; SLASH; SLASH])
           then 2%nat else 1%nat
      else 0%nat in
    let comps := norm_comps initial_slashes [] (split_char SLASH path) in
    let path' := repeat SLASH initial_slashes ++ join [SLASH] comps in
    if is_empty path' then DOT else path'.

(** ** Exceptions, the socket, and the world around one connection *)

(** The [Exception] subclasses that the operations of the two servers raise.
    [IOError] is [OSError]; the two Unicode errors are subclasses of
    [ValueError]. *)
Inductive exn :=
| OSError | ValueError | UnicodeDecodeError | UnicodeEncodeError | IndexError.

Definition is_IOError (e : exn) : bool :=
  match e with OSError => true | _ => false end.

Definition is_ValueError (e : exn) : bool :=
  match e with
  | ValueError | UnicodeDecodeError | UnicodeEncodeError => true
  | _ => false
  end.

Inductive result (A : Type) :=
| Ok (a : A)
| Raise (e : exn).
Arguments Ok {A} a.
Arguments Raise {A} e.

(** What one connection's handler can observe.
    - [incoming]: what [recv] returns, the bytes the client sent (nothing
      when it closed without sending) or a socket error;
    - [transport k]: the fate of the [k]-th [sendall], [None] when all the
      data is transmitted, [Some n] when it raises after [n] bytes;
    - [date]: the ASCII text of [formatdate(usegmt=True)], as its bytes;
    - [guess_type]: the type of [mimetypes.guess_type], ASCII text as its
      bytes;
    - [isfile], [read_file]: [os.path.isfile] and the result of opening a
      path and reading it whole in binary mode. *)
Record World := {
  incoming : result bytes;
  transport : nat -> option nat;
  date : bytes;
  guess_type : str -> option bytes;
  isfile : str -> bool;
  read_file : str -> result bytes
}.

(** [b.decode("iso-8859-1")] *)
Definition text (b : bytes) : str := map Byte.to_N b.

(** The client socket: the chunks transmitted so far, the number of
    [sendall] calls, and whether [close] was called. *)
Record Sock := {
  sent : list bytes;
  calls : nat;
  closed : bool
}.

Definition fresh_sock : Sock := {| sent := []; calls := 0; closed := false |}.

(** Everything the peer received, in order. *)
Definition wire (s : Sock) : bytes := List.concat (sent s).

(** Computations on the socket that may raise; the socket survives a raise. *)
Definition M (A : Type) : Type := Sock -> result A * Sock.

Definition ret {A} (a : A) : M A := fun s => (Ok a, s).

Definition raise {A} (e : exn) : M A := fun s => (Raise e, s).

Definition bind {A B} (c : M A) (k : A -> M B) : M B :=
  fun s => match c s with
           | (Ok a, s') => k a s'
           | (Raise e, s') => (Raise e, s')
           end.

Notation "x <- c ;; k" := (bind c (fun x => k))
  (at level 61, c at next level, right associativity).
Notation "c ;;; k" := (bind c (fun _ => k))
  (at level 61, right associativity).

(** [try: c  except <filter> as e: h e]; an exception outside [catches]
    passes through. *)
Definition try_except {A} (c : M A) (catches : exn -> bool) (h : exn -> M A)
  : M A :=
  fun s => match c s with
           | (Ok a, s') => (Ok a, s')
           | (Raise e, s') => if catches e then h e s' else (Raise e, s')
           end.

(** [try: c  finally: f] *)
Definition try_finally {A} (c : M A) (f : M unit) : M A :=
  fun s => match c s with
           | (r, s') => match f s' with
                        | (Ok _, s'') => (r, s'')
                        | (Raise e, s'') => (Raise e, s'')
                        end
           end.

Definition of_option {A} (e : exn) (o : option A) : M A :=
  match o with Some a => ret a | None => raise e end.

Definition of_result {A} (r : result A) : M A :=
  match r with Ok a => ret a | Raise e => raise e end.

Definition any_exception (_ : exn) : bool := true.

Section Connection.

Variable w : World.

(** [sock.recv(n)] *)
Definition recv (n : nat) : M bytes :=
  fun s => if closed s then (Raise OSError, s)
           else match incoming w with
                | Ok b => (Ok (firstn n b), s)
                | Raise e => (Raise e, s)
                end.

(** [sock.sendall(data)] *)
Definition sendall (data : bytes) : M unit :=
  fun s => if closed s then (Raise OSError, s)
           else match transport w (calls s) with
                | None =>
                    (Ok tt, {| sent := sent s ++ [data];
                               calls := S (calls s); closed := false |})
                | Some n =>
                    (Raise OSError, {| sent := sent s ++ [firstn n data];
                                       calls := S (calls s); closed := false |})
                end.

(** [sock.close()] *)
Definition close : M unit :=
  fun s => (Ok tt, {| sent := sent s; calls := calls s; closed := true |}).

End Connection.

(** ** multithreaded_webserver_testing.py

    The [print] calls (and the User-Agent scan that only feeds one) write to
    the console and are left out. *)
Module Threaded.
Section Server.

(** [WEB_ROOT = os.getcwd()] *)
Variable WEB_ROOT : str.
Variable w : World.

Definition http_date : str := text (date w).

(** [safe_path(url_path)], its first three lines as [raw_path]; [split]
    never returns the empty list, so the [[0]] is a head. *)
Definition raw_path (url_path : str) : str :=
  let raw := lstrip SLASH (unquote (hd [] (split_char_once QUESTION url_path))) in
  if is_empty raw then lit "webservertesting.html" else raw.

Definition safe_path (url_path : str) : option str :=
  let raw := raw_path url_path in
  let safe := normpath (path_join WEB_ROOT raw) in
  if negb (startswith safe WEB_ROOT) then None else Some safe.

(** The default [body] of [send_error]. *)
Definition error_page (code : N) (reason : str) : str :=
  lit "<html><body><h1>" ++ str_of_N code ++ lit " " ++ reason
  ++ lit "</h1></body></html>".

(** [send_error(sock, code, reason, headers=None, body=None)] *)
Definition send_error (code : N) (reason : str)
           (headers : option (list str)) (body : option bytes) : M unit :=
  body <- match body with
          | None => of_option UnicodeEncodeError (utf8_encode (error_page code reason))
          | Some b => ret b
          end ;;
  let base_headers :=
    [ lit "Date: " ++ http_date;
      lit "Server: CS538Toy/1.0";
      lit "Content-Type: text/html; charset=utf-8";
      lit "Content-Length: " ++ str_of_N (len body);
      lit "Connection: close" ] in
  let base_headers :=
    match headers with
    | Some (h :: t) => base_headers ++ h :: t
    | _ => base_headers
    end in
  let header_block :=
    lit "HTTP/1.1 " ++ str_of_N code ++ lit " " ++ reason ++ CRLF
    ++ join CRLF base_headers ++ CRLF ++ CRLF in
  header_bytes <- of_option UnicodeEncodeError (encode_latin1 header_block) ;;
  sendall w header_bytes ;;;
  sendall w body.

(** [handle_client], from the MIME lookup to the two [sendall] calls of the
    200 response. *)
Definition serve_file (filepath : str) : M unit :=
  let content_type :=
    match guess_type w filepath with
    | Some t => if is_empty t then lit "application/octet-stream" else text t
    | None => lit "application/octet-stream"
    end in
  let content_type :=
    if startswith content_type (lit "text/")
    then content_type ++ lit "; charset=utf-8" else content_type in
  content <- of_result (read_file w filepath) ;;
  let headers :=
    [ lit "Date: " ++ http_date;
      lit "Server: CS538Toy/1.0";
      lit "Content-Type: " ++ content_type;
      lit "Content-Length: " ++ str_of_N (len content);
      lit "Connection: close" ] in
  let header_block :=
    lit "HTTP/1.1 200 OK" ++ CRLF ++ join CRLF headers ++ CRLF ++ CRLF in
  header_bytes <- of_option UnicodeEncodeError (encode_latin1 header_block) ;;
  sendall w header_bytes ;;;
  sendall w content.

(** [handle_client], from the emptiness test on [request_data] on; every
    [return] of the source is the end of a branch here. *)
Definition respond (request_data : str) : M unit :=
  if is_empty request_data then ret tt
  else
    match split_crlf request_data with
    | [] => raise IndexError
    | request_line :: _ =>
        match split_ws request_line with
        | [method; path; version] =>
            if negb (str_eqb method (lit "GET"))
            then send_error 405 (lit "Method Not Allowed")
                            (Some [lit "Allow: GET"]) None
            else
              match safe_path path with
              | None => send_error 404 (lit "Not Found") None None
              | Some filepath =>
                  if is_empty filepath || negb (isfile w filepath)
                  then send_error 404 (lit "Not Found") None None
                  else serve_file filepath
              end
        | _ => send_error 400 (lit "Bad Request") None None
        end
    end.

(** The [try] block of [handle_client]. *)
Definition attempt : M unit :=
  data <- recv w 4096 ;;
  request_data <- of_option UnicodeDecodeError (utf8_decode Ignore data) ;;
  respond request_data.

(** [handle_client(client_socket, client_addr)] *)
Definition handle_client : M unit :=
  try_finally
    (try_except
       attempt
       any_exception
       (fun _ =>
          try_except
            (send_error 500 (lit "Internal Server Error") None None)
            any_exception
            (fun _ => ret tt)))
    close.

End Server.
End Threaded.

(** ** socketwebserver.py *)
Module Single.
Section Server.

Variable w : World.

(** The 404 body of the [except IOError] branch. *)
Definition error_body : bytes :=
  list_byte_of_string
    "<html><body><h1>404 Not Found</h1><p>The requested file was not found on the server.</p></body></html>".

(** [open(filepath, "r", encoding="utf-8").read().encode("utf-8")] *)
Definition read_text (filepath : str) : result bytes :=
  match read_file w filepath with
  | Raise e => Raise e
  | Ok raw =>
      match utf8_decode Strict raw with
      | None => Raise UnicodeDecodeError
      | Some s =>
          match utf8_encode (translate_newlines s) with
          | None => Raise UnicodeEncodeError
          | Some b => Ok b
          end
      end
  end.

(** The inner [try] of the loop body: the request line, or GET / HTTP/1.1
    when it does not unpack into three tokens. *)
Definition parse_request_line (first_line : str) : M (str * str * str) :=
  try_except
    (match split_ws first_line with
     | [method; path; version] =>
         if negb (str_eqb method (lit "GET")) then raise OSError
         else ret (method, path, version)
     | _ => raise ValueError
     end)
    is_ValueError
    (fun _ => ret (lit "GET", lit "/", lit "HTTP/1.1")).

(** The file every request is mapped to: [path] after the default-page
    substitution, [lstrip("/")] and [split("?")[0]]. *)
Definition request_filepath (path : str) : str :=
  let path := if str_eqb path (lit "/") then lit "/webservertesting.html" else path in
  hd [] (split_char QUESTION (lstrip SLASH path)).

(** The MIME lookup and the charset annotation. *)
Definition content_type_of (filepath : str) : str :=
  let content_type :=
    match guess_type w filepath with
    | Some t => text t
    | None => lit "application/octet-stream"
    end in
  if startswith content_type (lit "text/")
  then content_type ++ lit "; charset=utf-8" else content_type.

(** The file read, in text mode for a [text/] type and in binary mode
    otherwise. *)
Definition read_content (filepath : str) : result bytes :=
  if startswith (content_type_of filepath) (lit "text/")
  then read_text filepath
  else read_file w filepath.

(** The loop body from the default-page substitution to the two [sendall]
    calls of the 200 response. *)
Definition serve_path (path : str) : M unit :=
  let filepath := request_filepath path in
  let content_type := content_type_of filepath in
  file_content <- of_result (read_content filepath) ;;
  let response_header :=
    lit "HTTP/1.1 200 OK" ++ CRLF
    ++ lit "Content-Type: " ++ content_type ++ CRLF
    ++ lit "Content-Length: " ++ str_of_N (len file_content) ++ CRLF
    ++ lit "Connection: close" ++ CRLF ++ CRLF in
  header_bytes <- of_option UnicodeEncodeError (encode_latin1 response_header) ;;
  sendall w header_bytes ;;;
  sendall w file_content.

(** The [try] block of the loop body; the [continue] is the first branch. *)
Definition request : M unit :=
  data <- recv w 2048 ;;
  request_data <- of_option UnicodeDecodeError (utf8_decode Ignore data) ;;
  if is_empty request_data then ret tt
  else
    let first_line :=
      hd [] (match splitlines request_data with [] => [[]] | l => l end) in
    parsed <- parse_request_line first_line ;;
    let '(method, path, version) := parsed in
    serve_path path.

(** The [except IOError] branch. *)
Definition not_found : M unit :=
  let error_header :=
    lit "HTTP/1.1 404 Not Found" ++ CRLF
    ++ lit "Content-Type: text/html; charset=utf-8" ++ CRLF
    ++ lit "Content-Length: " ++ str_of_N (len error_body) ++ CRLF
    ++ lit "Connection: close" ++ CRLF ++ CRLF in
  header_bytes <- of_option UnicodeEncodeError (encode_latin1 error_header) ;;
  sendall w header_bytes ;;;
  sendall w error_body.

(** One iteration of the accept loop, from [accept] to the [finally]. *)
Definition serve_connection : M unit :=
  try_finally (try_except request is_IOError (fun _ => not_found)) close.

End Server.

(** The accept loop over the connections that arrive, in order: the sockets
    of the connections handled, and the exception that ended the loop (and
    with it the process), if any. *)
Fixpoint serve_forever (arrivals : list World) : list Sock * option exn :=
  match arrivals with
  | [] => ([], None)
  | w :: rest =>
      match serve_connection w fresh_sock with
      | (Ok _, s) => let (ss, r) := serve_forever rest in (s :: ss, r)
      | (Raise e, s) => ([s], Some e)
      end
  end.

End Single.

(** ** Responses, as the specification describes them and as a client reads them *)

Record Response := {
  status : N;
  reason : str;
  headers : list (str * str);
  body : bytes
}.

(** The total form of the ISO-8859-1 encoder, for text below U+0100. *)
Definition latin1_bytes (s : str) : bytes := map byte_of_N s.

Definition header_line (h : str * str) : str :=
  fst h ++ lit ": " ++ snd h ++ CRLF.

(** Status line, one line per header, and the blank line. *)
Definition head_text (r : Response) : str :=
  lit "HTTP/1.1 " ++ str_of_N (status r) ++ lit " " ++ reason r ++ CRLF
  ++ flat_map header_line (headers r) ++ CRLF.

(** A response on the socket: the head in one [sendall], the body in a second. *)
Definition chunks (r : Response) : list bytes :=
  [latin1_bytes (head_text r); body r].

(** The value of the first header called [name]. *)
Fixpoint header (name : str) (hs : list (str * str)) : option str :=
  match hs with
  | [] => None
  | (n, v) :: hs' => if str_eqb n name then Some v else header name hs'
  end.

(** The error responses of the multithreaded server: [extra] are the headers
    a caller of [send_error] adds. *)
Definition error_response (w : World) (code : N) (reason : string)
           (extra : list (str * str)) : Response :=
  {| status := code;
     reason := lit reason;
     headers :=
       [ (lit "Date", text (date w));
         (lit "Server", lit "CS538Toy/1.0");
         (lit "Content-Type", lit "text/html; charset=utf-8");
         (lit "Content-Length",
          str_of_N (len (list_byte_of_string
             ("<html><body><h1>" ++ NilEmpty.string_of_uint (N.to_uint code)
              ++ " " ++ reason ++ "</h1></body></html>"))));
         (lit "Connection", lit "close") ] ++ extra;
     body := list_byte_of_string
               ("<html><body><h1>" ++ NilEmpty.string_of_uint (N.to_uint code)
                ++ " " ++ reason ++ "</h1></body></html>") |}.

(** The MIME type sent for a table entry: a missing (or empty) entry is the
    generic binary type, a [text/] type gets the charset annotation. *)
Definition content_type_for (entry : option bytes) : str :=
  let t := match entry with
           | Some (b :: bs) => text (b :: bs)
           | _ => lit "application/octet-stream"
           end in
  if startswith t (lit "text/") then t ++ lit "; charset=utf-8" else t.

(** The 200 response of the multithreaded server. *)
Definition ok_response (w : World) (content_type : str) (content : bytes)
  : Response :=
  {| status := 200;
     reason := lit "OK";
     headers :=
       [ (lit "Date", text (date w));
         (lit "Server", lit "CS538Toy/1.0");
         (lit "Content-Type", content_type);
         (lit "Content-Length", str_of_N (len content));
         (lit "Connection", lit "close") ];
     body := content |}.

(** The two responses of the single-threaded server. *)
Definition single_ok_response (content_type : str) (content : bytes)
  : Response :=
  {| status := 200;
     reason := lit "OK";
     headers :=
       [ (lit "Content-Type", content_type);
         (lit "Content-Length", str_of_N (len content));
         (lit "Connection", lit "close") ];
     body := content |}.

Definition single_not_found_response : Response :=
  {| status := 404;
     reason := lit "Not Found";
     headers :=
       [ (lit "Content-Type", lit "text/html; charset=utf-8");
         (lit "Content-Length", str_of_N (len Single.error_body));
         (lit "Connection", lit "close") ];
     body := Single.error_body |}.

(** A transport that never fails. *)
Definition healthy (w : World) : Prop := forall k, transport w k = None.

(** The text a handler works on: the first [n] bytes received, decoded with
    [errors="ignore"]. *)
Definition request_text (n : nat) (w : World) : option str :=
  match incoming w with
  | Ok data => utf8_decode Ignore (firstn n data)
  | Raise _ => None
  end.

(** The request line of the multithreaded server ([split("\r\n")[0]]) and of
    the single-threaded one ([(splitlines() or [""])[0]]). *)
Definition request_line (s : str) : str := hd [] (split_crlf s).
Definition first_line (s : str) : str := hd [] (splitlines s).

(** Lexical containment: the components of [root] start those of [p]. *)
Definition components (p : str) : list str :=
  filter (fun c => negb (is_empty c)) (split_char SLASH p).

Fixpoint list_prefix (a b : list str) : bool :=
  match a, b with
  | [], _ => true
  | x :: a', y :: b' => str_eqb x y && list_prefix a' b'
  | _ :: _, [] => false
  end.

Definition inside_root (root p : str) : bool :=
  list_prefix (components root) (components p).

(** The file a path given to [open] names when the working directory is
    [cwd]. *)
Definition opened_from (cwd p : str) : str := normpath (path_join cwd p).

(** Step 3 of the specification's resolver, word for word: a single leading
    separator is stripped, and an empty result is the default document. *)
Definition strip_one_leading (s : str) : str :=
  match s with
  | c :: s' => if c =? SLASH then s' else s
  | [] => []
  end.

Definition spec_relative_path (default_document url_path : str) : str :=
  let p := strip_one_leading (unquote (hd [] (split_char_once QUESTION url_path))) in
  if is_empty p then default_document else p.

(** Reading a response off the wire: the head ends at the first blank line. *)
Fixpoint split_head_go (cur : list byte) (b : bytes) : option (str * bytes) :=
  match b with
  | x0d :: x0a :: x0d :: x0a :: rest => Some (text (rev cur), rest)
  | x :: b' => split_head_go (x :: cur) b'
  | [] => None
  end.

Fixpoint cut_at (sep : char) (cur : str) (s : str) : str * str :=
  match s with
  | [] => (rev cur, [])
  | x :: s' => if x =? sep then (rev cur, s') else cut_at sep (x :: cur) s'
  end.

Definition number (s : str) : N :=
  fold_left (fun acc d => 10 * acc + (d - 48)) s 0.

Definition parse_header (l : str) : str * str :=
  let (n, v) := cut_at 58 [] l in (n, lstrip 32 v).

Definition parse_response (b : bytes) : option Response :=
  match split_head_go [] b with
  | None => None
  | Some (head, rest) =>
      match split_crlf head with
      | [] => None
      | status_line :: lines =>
          let (version, r1) := cut_at 32 [] status_line in
          let (code, r2) := cut_at 32 [] r1 in
          Some {| status := number code; reason := r2;
                  headers := map parse_header lines; body := rest |}
      end
  end.

(** ** Worlds used in the examples *)

Definition request_bytes (request_line : string) : bytes :=
  list_byte_of_string request_line ++ [x0d; x0a; x0d; x0a].

Definition html_type (p : str) : option bytes :=
  if endswith_char p 108 then Some (list_byte_of_string "text/html") else None.

Definition page : bytes := list_byte_of_string "<p>hi</p>" ++ [x0d; x0a].
Definition secret : bytes := list_byte_of_string "root:x:0:0".

(** A site rooted at /srv/www with webservertesting.html, index.html and
    latin.html (the one byte E9, not UTF-8) in it, and a file outside it,
    /srv/www2/secret.txt.  Paths are keyed as the
    servers pass them: absolute for the multithreaded server, relative to
    the working directory /srv/www for the single-threaded one. *)
Definition WEB_ROOT : str := lit "/srv/www".

Definition site_files : list (str * bytes) :=
  [ (lit "/srv/www/webservertesting.html", page);
    (lit "webservertesting.html", page);
    (lit "/srv/www/index.html", page);
    (lit "index.html", page);
    (lit "/srv/www/latin.html", [xe9]);
    (lit "latin.html", [xe9]);
    (lit "/srv/www2/secret.txt", secret);
    (lit "../www2/secret.txt", secret) ].

Fixpoint lookup_file (p : str) (fs : list (str * bytes)) : option bytes :=
  match fs with
  | [] => None
  | (q, b) :: fs' => if str_eqb q p then Some b else lookup_file p fs'
  end.

Definition site (request : bytes) : World :=
  {| incoming := Ok request;
     transport := fun _ => None;
     date := list_byte_of_string "Tue, 03 Nov 2026 09:00:00 GMT";
     guess_type := html_type;
     isfile := fun p => match lookup_file p site_files with
                        | Some _ => true | None => false end;
     read_file := fun p => match lookup_file p site_files with
                           | Some b => Ok b | None => Raise OSError end |}.

(** The same site with a disk that fails on every read. *)
Definition failing_disk (request : bytes) : World :=
  {| incoming := Ok request;
     transport := fun _ => None;
     date := list_byte_of_string "Tue, 03 Nov 2026 09:00:00 GMT";
     guess_type := html_type;
     isfile := fun _ => true;
     read_file := fun _ => Raise OSError |}.



(** ** Outcomes of a run *)

(** The open socket [s] after the chunks [cs] went out, and a socket after
    [close]. *)
Definition after (s : Sock) (cs : list bytes) : Sock :=
  {| sent := sent s ++ cs; calls := List.length cs + calls s; closed := false |}.

Definition shut (s : Sock) : Sock :=
  {| sent := sent s; calls := calls s; closed := true |}.

(** The responses the multithreaded server has. *)
Inductive threaded_response (w : World) : Response -> Prop :=
| threaded_400 : threaded_response w (error_response w 400 "Bad Request" [])
| threaded_404 : threaded_response w (error_response w 404 "Not Found" [])
| threaded_405 :
    threaded_response w
      (error_response w 405 "Method Not Allowed" [(lit "Allow", lit "GET")])
| threaded_500 :
    threaded_response w (error_response w 500 "Internal Server Error" [])
| threaded_200 filepath content :
    threaded_response w
      (ok_response w (content_type_for (guess_type w filepath)) content).


(** The single-threaded server's answer to a request for [path] on a
    transport that never fails: the file with status 200, the 404 response
    when reading it raises an [IOError], and no response at all when it
    raises anything else (the exception then leaves the loop). *)
Definition single_reply (w : World) (path : str) : result unit * Sock :=
  match Single.read_content w (Single.request_filepath path) with
  | Ok content =>
      (Ok tt, shut (after fresh_sock (chunks (single_ok_response
                 (Single.content_type_of w (Single.request_filepath path))
                 content))))
  | Raise e =>
      if is_IOError e
      then (Ok tt, shut (after fresh_sock (chunks single_not_found_response)))
      else (Raise e, shut fresh_sock)
  end.

(** ** Vocabulary for the further properties *)

(** A component that [normpath] keeps: not empty, not [.], not [..]. *)
Definition proper (c : str) : bool :=
  negb (is_empty c) && negb (str_eqb c DOT) && negb (str_eqb c DOTDOT).

Definition slash_free (c : str) : bool := forallb (fun x => negb (x =? SLASH)) c.

(** A path segment that stands for itself in a request path: proper, and
    free of [/], [?] and [%]. *)
Definition segment (c : str) : bool :=
  proper c
  && forallb (fun x => negb (x =? SLASH) && negb (x =? QUESTION)
                       && negb (x =? PERCENT)) c.

(** A directory name as [os.getcwd()] returns it: proper components, free
    of [/]. *)
Definition dirname (c : str) : bool := proper c && slash_free c.

(** ["/" + "/".join(comps)] *)
Definition absolute (comps : list str) : str := SLASH :: join [SLASH] comps.

(** The world [w] with another [recv] result, and with another file system
    and MIME table. *)
Definition with_incoming (w : World) (r : result bytes) : World :=
  {| incoming := r; transport := transport w; date := date w;
     guess_type := guess_type w; isfile := isfile w; read_file := read_file w |}.

Definition with_files (w : World) (g : str -> option bytes)
           (f : str -> bool) (r : str -> result bytes) : World :=
  {| incoming := incoming w; transport := transport w; date := date w;
     guess_type := g; isfile := f; read_file := r |}.

(** Text without a CR, and the head of a response up to, not including,
    the blank line: the status line, then each header on a line of its own. *)
Definition cr_free (s : str) : bool := forallb (fun c => negb (c =? CR)) s.

Definition head_lines (r : Response) : str :=
  (lit "HTTP/1.1 " ++ str_of_N (status r) ++ lit " " ++ reason r)
  ++ flat_map (fun h => CRLF ++ fst h ++ lit ": " ++ snd h) (headers r).

(** A Content-Length value as a reader takes it: a non-empty run of decimal
    digits, whose number is [number]. *)
Definition is_decimal (s : str) : bool :=
  negb (is_empty s) && forallb (fun c => (48 <=? c) && (c <=? 57)) s.

(** What a reader of the two chunks of a response finds: the bytes parse as
    a response whose body is the second chunk, there is a Content-Length
    header, and every header of that name is the decimal count of the bytes
    of the second chunk. *)
Definition content_length_matches (head content : bytes) : Prop :=
  exists r,
    parse_response (head ++ content) = Some r
    /\ body r = content
    /\ (exists v, In (lit "Content-Length", v) (headers r))
    /\ forall v, In (lit "Content-Length", v) (headers r) ->
                 is_decimal v = true
                 /\ number v = N.of_nat (List.length content).

(** Closes a case in which a response of the family went out. *)
Ltac responded := right; right; eexists; split; [constructor | reflexivity].

(** * Facts about the string functions *)

#[local] Arguments str_of_N : simpl never.
#[local] Arguments text : simpl never.

Lemma str_eqb_eq (a b : str) : str_eqb a b = true <-> a = b.
Proof.
  revert b; induction a as [|x a IH]; intros [|y b]; simpl; split;
    try congruence; try reflexivity.
  - intros H. apply andb_true_iff in H as [Hx Hab].
    apply N.eqb_eq in Hx. apply IH in Hab. congruence.
  - intros H. injection H as -> ->. rewrite N.eqb_refl. simpl. now apply IH.
Qed.

Lemma str_eqb_refl (a : str) : str_eqb a a = true.
Proof. now apply str_eqb_eq. Qed.

Lemma startswith_iff (s p : str) :
  startswith s p = true <-> exists rest, s = p ++ rest.
Proof.
  revert s; induction p as [|y p IH]; intros s; simpl.
  - split; [intros _; now exists s | reflexivity].
  - destruct s as [|x s].
    + split; [discriminate | intros [rest H]; discriminate].
    + rewrite andb_true_iff, N.eqb_eq, IH. split.
      * intros [-> [rest ->]]. now exists rest.
      * intros [rest H]. injection H as -> ->. split; [reflexivity | now exists rest].
Qed.

(** [lstrip] removes a run of the character, and all of it. *)
Lemma lstrip_spec (c : char) (s : str) :
  exists n, s = repeat c n ++ lstrip c s /\ startswith (lstrip c s) [c] = false.
Proof.
  induction s as [|x s IH]; simpl.
  - now exists 0%nat.
  - destruct (x =? c) eqn:E.
    + apply N.eqb_eq in E; subst x. destruct IH as [n [H1 H2]].
      exists (S n). simpl. split; [now f_equal | exact H2].
    + exists 0%nat. simpl. now rewrite E.
Qed.

(** The head of a split is the text before the first separator. *)
Lemma split_char_once_go_head (c : char) (s cur : str) :
  exists pre, hd [] (split_char_once_go c cur s) = rev cur ++ pre
              /\ ~ In c pre
              /\ (s = pre \/ exists t, s = pre ++ c :: t).
Proof.
  revert cur; induction s as [|x s IH]; intros cur; simpl.
  - exists []. rewrite app_nil_r. split; [reflexivity | split; [easy | now left]].
  - destruct (x =? c) eqn:E.
    + apply N.eqb_eq in E; subst x. exists []. simpl. rewrite app_nil_r.
      split; [reflexivity | split; [easy | right; now exists s]].
    + destruct (IH (x :: cur)) as [pre [H1 [H2 H3]]].
      exists (x :: pre). split; [|split].
      * rewrite H1. simpl. now rewrite <- app_assoc.
      * intros [Hx | Hin]; [subst; now rewrite N.eqb_refl in E | contradiction].
      * destruct H3 as [-> | [t ->]]; [now left | right; now exists t].
Qed.

Lemma split_char_go_head (c : char) (s cur : str) :
  exists pre, hd [] (split_char_go c cur s) = rev cur ++ pre
              /\ ~ In c pre
              /\ (s = pre \/ exists t, s = pre ++ c :: t).
Proof.
  revert cur; induction s as [|x s IH]; intros cur; simpl.
  - exists []. rewrite app_nil_r. split; [reflexivity | split; [easy | now left]].
  - destruct (x =? c) eqn:E.
    + apply N.eqb_eq in E; subst x. exists []. simpl. rewrite app_nil_r.
      split; [reflexivity | split; [easy | right; now exists s]].
    + destruct (IH (x :: cur)) as [pre [H1 [H2 H3]]].
      exists (x :: pre). split; [|split].
      * rewrite H1. simpl. now rewrite <- app_assoc.
      * intros [Hx | Hin]; [subst; now rewrite N.eqb_refl in E | contradiction].
      * destruct H3 as [-> | [t ->]]; [now left | right; now exists t].
Qed.

Lemma before_first (c : char) (s : str) (f : str) :
  f = hd [] (split_char_once c s) \/ f = hd [] (split_char c s) ->
  ~ In c f /\ (s = f \/ exists t, s = f ++ c :: t).
Proof.
  intros [-> | ->].
  - destruct (split_char_once_go_head c s []) as [pre [H1 H2]].
    unfold split_char_once. simpl in H1. now rewrite H1.
  - destruct (split_char_go_head c s []) as [pre [H1 H2]].
    unfold split_char. simpl in H1. now rewrite H1.
Qed.

(** * Path resolution *)

(** C10: [safe_path] returns [None] or a string that starts, character for
    character, with [WEB_ROOT]; the test it applies is exactly that prefix
    test on the normalised join, so a path in a sibling directory whose name
    extends the root's name passes it although it is not below the root. *)
Theorem C10_safe_path_is_a_string_prefix_check :
  (forall root url_path,
      Threaded.safe_path root url_path = None
      \/ exists rest, Threaded.safe_path root url_path = Some (root ++ rest))
  /\ (forall root url_path safe,
        Threaded.safe_path root url_path = Some safe <->
        safe = normpath (path_join root (Threaded.raw_path url_path))
        /\ startswith safe root = true)
  /\ Threaded.safe_path WEB_ROOT (lit "/../www2/secret.txt")
     = Some (lit "/srv/www2/secret.txt")
  /\ startswith (lit "/srv/www2/secret.txt") WEB_ROOT = true
  /\ inside_root WEB_ROOT (lit "/srv/www2/secret.txt") = false.
Proof.
  split; [|split; [|repeat split; vm_compute; reflexivity]].
  - intros root url_path. unfold Threaded.safe_path.
    destruct (startswith _ root) eqn:E; simpl; [right | now left].
    apply startswith_iff in E as [rest E]. exists rest. now rewrite E.
  - intros root url_path safe. unfold Threaded.safe_path.
    destruct (startswith _ root) eqn:E; simpl; split.
    + intros H. injection H as <-. now split.
    + intros [-> _]. reflexivity.
    + discriminate.
    + intros [-> H]. congruence.
Qed.

(** C1, at a failing input: with the root /srv/www, the request path
    /../www2/secret.txt (also written with %2e%2e%2f) passes [safe_path]
    although /srv/www2/secret.txt is not below the root, and the
    multithreaded server answers 200 with that file; the single-threaded
    server opens ../www2/secret.txt, outside its directory, and answers 200
    with it. *)
Theorem C1_target_outside_root :
  let w := site (request_bytes "GET /../www2/secret.txt HTTP/1.1") in
  Threaded.safe_path WEB_ROOT (lit "/../www2/secret.txt")
    = Some (lit "/srv/www2/secret.txt")
  /\ Threaded.safe_path WEB_ROOT (lit "/%2e%2e%2fwww2/secret.txt")
    = Some (lit "/srv/www2/secret.txt")
  /\ inside_root WEB_ROOT (lit "/srv/www2/secret.txt") = false
  /\ Threaded.handle_client WEB_ROOT w fresh_sock
     = (Ok tt, {| sent := chunks (ok_response w (lit "application/octet-stream") secret);
                  calls := 2; closed := true |})
  /\ Single.request_filepath (lit "/../www2/secret.txt") = lit "../www2/secret.txt"
  /\ inside_root WEB_ROOT (opened_from WEB_ROOT (lit "../www2/secret.txt")) = false
  /\ Single.serve_connection w fresh_sock
     = (Ok tt, {| sent := chunks (single_ok_response (lit "application/octet-stream") secret);
                  calls := 2; closed := true |}).
Proof. repeat split; vm_compute; reflexivity. Qed.

(** C7, where the claim fails: of two leading separators the multithreaded
    resolver removes both, so //etc/passwd resolves below the root where
    stripping one would leave the absolute path /etc/passwd; the
    single-threaded server substitutes its default page only for the path
    that is exactly "/", and does no percent-decoding. *)
Lemma C7_strips_more_than_one_separator :
  Threaded.raw_path (lit "//etc/passwd") = lit "etc/passwd"
  /\ spec_relative_path (lit "webservertesting.html") (lit "//etc/passwd")
     = lit "/etc/passwd"
  /\ Threaded.raw_path (lit "//etc/passwd")
     <> spec_relative_path (lit "webservertesting.html") (lit "//etc/passwd")
  /\ Threaded.safe_path WEB_ROOT (lit "//etc/passwd") = Some (lit "/srv/www/etc/passwd")
  /\ normpath (path_join WEB_ROOT (lit "/etc/passwd")) = lit "/etc/passwd"
  /\ Single.request_filepath (lit "//index.html") = lit "index.html"
  /\ Single.request_filepath (lit "/?x=1") = []
  /\ Single.request_filepath (lit "/%69ndex.html") = lit "%69ndex.html".
Proof. repeat split; vm_compute; (reflexivity || discriminate). Qed.

(** C7, amended.  Multithreaded server: the decoded, query-free path is a run
    of separators followed by [rest], which does not start with a separator;
    the relative path joined onto the root is [rest], or the default
    document when [rest] is empty; the query-free path is the text before
    the first [?].  Single-threaded server: the path "/" becomes
    /webservertesting.html first; then every leading separator is removed,
    and the file name is what precedes the first [?], without decoding. *)
Theorem C7_leading_separators_and_default_document :
  (forall url_path,
      let q := hd [] (split_char_once QUESTION url_path) in
      (~ In QUESTION q /\ (url_path = q \/ exists t, url_path = q ++ QUESTION :: t))
      /\ exists n rest,
          unquote q = repeat SLASH n ++ rest
          /\ startswith rest [SLASH] = false
          /\ Threaded.raw_path url_path
             = (if is_empty rest then lit "webservertesting.html" else rest))
  /\ (forall root url_path,
        Threaded.safe_path root url_path
        = let safe := normpath (path_join root (Threaded.raw_path url_path)) in
          if startswith safe root then Some safe else None)
  /\ (forall path,
        let path' := if str_eqb path (lit "/")
                     then lit "/webservertesting.html" else path in
        exists n rest,
          path' = repeat SLASH n ++ rest
          /\ startswith rest [SLASH] = false
          /\ ~ In QUESTION (Single.request_filepath path)
          /\ (rest = Single.request_filepath path
              \/ exists t, rest = Single.request_filepath path ++ QUESTION :: t))
  /\ Single.request_filepath (lit "/") = lit "webservertesting.html".
Proof.
  split; [|split; [|split]].
  - intros url_path q. split.
    + apply before_first. now left.
    + destruct (lstrip_spec SLASH (unquote q)) as [n [H1 H2]].
      exists n, (lstrip SLASH (unquote q)). repeat split; assumption || reflexivity.
  - intros root url_path. unfold Threaded.safe_path. simpl.
    now destruct (startswith _ root).
  - intros path path'.
    destruct (lstrip_spec SLASH path') as [n [H1 H2]].
    exists n, (lstrip SLASH path'). split; [exact H1 | split; [exact H2 |]].
    apply before_first. now right.
  - vm_compute. reflexivity.
Qed.

(** * Codecs *)

Lemma N_of_ascii_bounded (a : ascii) : N_of_ascii a < 256.
Proof.
  destruct a as [[] [] [] [] [] [] [] []]; vm_compute; reflexivity.
Qed.

Lemma is_latin1_app (a b : str) :
  is_latin1 (a ++ b) = is_latin1 a && is_latin1 b.
Proof. apply forallb_app. Qed.

Lemma is_latin1_lit (s : string) : is_latin1 (lit s) = true.
Proof.
  induction s as [|a s IH]; [reflexivity|].
  unfold lit in *. simpl. rewrite IH, andb_true_r.
  apply N.ltb_lt, N_of_ascii_bounded.
Qed.

Lemma is_latin1_text (b : bytes) : is_latin1 (text b) = true.
Proof.
  induction b as [|x b IH]; [reflexivity|].
  unfold text in *. simpl. rewrite IH, andb_true_r.
  apply N.ltb_lt. pose proof (Byte.to_N_bounded x). lia.
Qed.

Lemma is_latin1_str_of_N (n : N) : is_latin1 (str_of_N n) = true.
Proof. apply is_latin1_lit. Qed.

Lemma encode_latin1_ok (s : str) :
  is_latin1 s = true -> encode_latin1 s = Some (latin1_bytes s).
Proof. intros H. unfold encode_latin1. now rewrite H. Qed.

(** Decoding with [errors="ignore"] never fails. *)
Lemma utf8_decode_go_ignore (fuel : nat) (bs : list N) :
  exists s, utf8_decode_go fuel Ignore bs = Some s.
Proof.
  revert bs; induction fuel as [|fuel IH]; intros [|b0 rest]; simpl;
    try (now eexists).
  destruct (utf8_step b0 rest) as [cp used | used].
  - destruct (IH (skipn (used - 1) rest)) as [s ->]. simpl. now eexists.
  - apply IH.
Qed.

Lemma utf8_decode_ignore (b : bytes) : exists s, utf8_decode Ignore b = Some s.
Proof. apply utf8_decode_go_ignore. Qed.

(** The fuel of the decoder is never the reason it stops: any amount at
    least the length of the input gives the same text. *)
Lemma utf8_decode_go_fuel (e : errors) (f1 f2 : nat) (bs : list N) :
  (List.length bs <= f1)%nat -> (List.length bs <= f2)%nat ->
  utf8_decode_go f1 e bs = utf8_decode_go f2 e bs.
Proof.
  revert f2 bs; induction f1 as [|f1 IH]; intros [|f2] [|b0 rest] H1 H2;
    simpl in *; try reflexivity; try lia.
  assert (Hk : forall k, utf8_decode_go f1 e (skipn k rest)
                         = utf8_decode_go f2 e (skipn k rest)).
  { intros k. apply IH; rewrite length_skipn; lia. }
  destruct (utf8_step b0 rest) as [cp used | used]; [now rewrite Hk|].
  destruct e; [reflexivity | apply Hk | now rewrite Hk].
Qed.

(** * Runs on a healthy transport *)

Section Runs.

Variable w : World.
Hypothesis transport_ok : healthy w.

Lemma sendall_run (data : bytes) (s : Sock) :
  closed s = false -> sendall w data s = (Ok tt, after s [data]).
Proof.
  intros H. unfold sendall, after. rewrite H, transport_ok. reflexivity.
Qed.

Lemma after_after (s : Sock) (a b : list bytes) :
  after (after s a) b = after s (a ++ b).
Proof.
  unfold after. simpl. rewrite <- app_assoc. f_equal.
  rewrite length_app. lia.
Qed.

(** The two [sendall] calls at the end of every response. *)
Lemma send_response_run (header_block : str) (r : Response) (s : Sock) :
  closed s = false ->
  header_block = head_text r ->
  is_latin1 (head_text r) = true ->
  (header_bytes <- of_option UnicodeEncodeError (encode_latin1 header_block) ;;
   sendall w header_bytes ;;; sendall w (body r)) s
  = (Ok tt, after s (chunks r)).
Proof.
  intros Hs -> Hl. unfold bind. rewrite (encode_latin1_ok _ Hl). simpl.
  rewrite (sendall_run _ _ Hs). rewrite sendall_run by reflexivity.
  now rewrite after_after.
Qed.

End Runs.

Lemma header_line_latin1 (h : str * str) :
  is_latin1 (header_line h) = is_latin1 (fst h) && is_latin1 (snd h).
Proof.
  unfold header_line. repeat rewrite is_latin1_app. rewrite is_latin1_lit.
  change (is_latin1 CRLF) with true. now rewrite andb_true_r.
Qed.

Lemma head_text_latin1 (r : Response) :
  is_latin1 (reason r) = true ->
  forallb (fun h => is_latin1 (fst h) && is_latin1 (snd h)) (headers r) = true ->
  is_latin1 (head_text r) = true.
Proof.
  intros Hr Hh. unfold head_text.
  repeat rewrite is_latin1_app. rewrite is_latin1_lit, is_latin1_str_of_N, Hr.
  change (is_latin1 CRLF) with true.
  rewrite is_latin1_lit. simpl. rewrite andb_true_r.
  induction (headers r) as [|h hs IH]; [reflexivity|].
  cbn [flat_map forallb] in *. apply andb_true_iff in Hh as [Hh Hhs].
  rewrite is_latin1_app, header_line_latin1, Hh. now apply IH.
Qed.

Lemma content_type_for_latin1 (entry : option bytes) :
  is_latin1 (content_type_for entry) = true.
Proof.
  unfold content_type_for.
  destruct entry as [[|b bs]|];
    match goal with |- context [startswith ?t ?p] => destruct (startswith t p) end;
    repeat rewrite is_latin1_app;
    repeat rewrite is_latin1_text; repeat rewrite is_latin1_lit; reflexivity.
Qed.

Lemma threaded_response_latin1 (w : World) (r : Response) :
  threaded_response w r -> is_latin1 (head_text r) = true.
Proof.
  intros [ | | | | filepath content]; apply head_text_latin1;
    try apply is_latin1_lit;
    cbn [headers error_response ok_response app forallb fst snd];
    repeat rewrite is_latin1_lit; repeat rewrite is_latin1_text;
    repeat rewrite is_latin1_str_of_N; try rewrite content_type_for_latin1;
    reflexivity.
Qed.

Lemma single_response_latin1 (w : World) (r : Response) :
  (exists filepath content,
      r = single_ok_response (Single.content_type_of w filepath) content)
  \/ r = single_not_found_response ->
  is_latin1 (head_text r) = true.
Proof.
  intros [[filepath [content ->]] | ->]; apply head_text_latin1;
    try apply is_latin1_lit;
    cbn [headers single_ok_response single_not_found_response forallb fst snd];
    repeat rewrite is_latin1_lit; repeat rewrite is_latin1_str_of_N;
    try reflexivity.
  unfold Single.content_type_of.
  destruct (guess_type w filepath) as [t|];
    match goal with |- context [startswith ?t ?p] => destruct (startswith t p) end;
    repeat rewrite is_latin1_app;
    repeat rewrite is_latin1_text; repeat rewrite is_latin1_lit; reflexivity.
Qed.

(** The header block [send_error] builds is the head of the error response. *)
Lemma send_error_block (code : N) (rsn d n : str) (b : bytes) :
  lit "HTTP/1.1 " ++ str_of_N code ++ lit " " ++ rsn ++ CRLF
  ++ join CRLF [ lit "Date: " ++ d; lit "Server: CS538Toy/1.0";
                 lit "Content-Type: text/html; charset=utf-8";
                 lit "Content-Length: " ++ n; lit "Connection: close" ]
  ++ CRLF ++ CRLF
  = head_text {| status := code; reason := rsn;
                 headers := [ (lit "Date", d); (lit "Server", lit "CS538Toy/1.0");
                              (lit "Content-Type", lit "text/html; charset=utf-8");
                              (lit "Content-Length", n);
                              (lit "Connection", lit "close") ];
                 body := b |}.
Proof.
  unfold head_text, header_line.
  cbn [status reason headers body flat_map join fst snd].
  repeat rewrite <- app_assoc. reflexivity.
Qed.

Lemma send_error_block_allow (code : N) (rsn d n : str) (b : bytes) :
  lit "HTTP/1.1 " ++ str_of_N code ++ lit " " ++ rsn ++ CRLF
  ++ join CRLF ([ lit "Date: " ++ d; lit "Server: CS538Toy/1.0";
                  lit "Content-Type: text/html; charset=utf-8";
                  lit "Content-Length: " ++ n; lit "Connection: close" ]
                ++ [lit "Allow: GET"])
  ++ CRLF ++ CRLF
  = head_text {| status := code; reason := rsn;
                 headers := [ (lit "Date", d); (lit "Server", lit "CS538Toy/1.0");
                              (lit "Content-Type", lit "text/html; charset=utf-8");
                              (lit "Content-Length", n);
                              (lit "Connection", lit "close") ]
                            ++ [(lit "Allow", lit "GET")];
                 body := b |}.
Proof.
  unfold head_text, header_line.
  cbn [status reason headers body flat_map join fst snd app].
  repeat rewrite <- app_assoc. reflexivity.
Qed.

Lemma serve_file_block (d ct n : str) (b : bytes) :
  lit "HTTP/1.1 200 OK" ++ CRLF
  ++ join CRLF [ lit "Date: " ++ d; lit "Server: CS538Toy/1.0";
                 lit "Content-Type: " ++ ct;
                 lit "Content-Length: " ++ n; lit "Connection: close" ]
  ++ CRLF ++ CRLF
  = head_text {| status := 200; reason := lit "OK";
                 headers := [ (lit "Date", d); (lit "Server", lit "CS538Toy/1.0");
                              (lit "Content-Type", ct);
                              (lit "Content-Length", n);
                              (lit "Connection", lit "close") ];
                 body := b |}.
Proof.
  unfold head_text, header_line.
  cbn [status reason headers body flat_map join fst snd].
  repeat rewrite <- app_assoc. reflexivity.
Qed.

Lemma single_block (code : N) (rsn ct n : str) (b : bytes) :
  (lit "HTTP/1.1 " ++ str_of_N code ++ lit " " ++ rsn) ++ CRLF
  ++ lit "Content-Type: " ++ ct ++ CRLF
  ++ lit "Content-Length: " ++ n ++ CRLF
  ++ lit "Connection: close" ++ CRLF ++ CRLF
  = head_text {| status := code; reason := rsn;
                 headers := [ (lit "Content-Type", ct);
                              (lit "Content-Length", n);
                              (lit "Connection", lit "close") ];
                 body := b |}.
Proof.
  unfold head_text, header_line.
  cbn [status reason headers body flat_map fst snd].
  repeat rewrite <- app_assoc. reflexivity.
Qed.

Section ThreadedRuns.

Variable root : str.
Variable w : World.
Hypothesis transport_ok : healthy w.

Lemma send_error_run (code : N) (rsn : string) (s : Sock) :
  closed s = false ->
  utf8_encode (Threaded.error_page code (lit rsn))
  = Some (body (error_response w code rsn [])) ->
  Threaded.send_error w code (lit rsn) None None s
  = (Ok tt, after s (chunks (error_response w code rsn []))).
Proof.
  intros Hs Hb. unfold Threaded.send_error. unfold bind at 1.
  rewrite Hb. cbn [of_option ret].
  apply (send_response_run w transport_ok _ (error_response w code rsn []) s Hs).
  - apply send_error_block.
  - apply head_text_latin1; [apply is_latin1_lit|].
    cbn [headers error_response app forallb fst snd].
    repeat rewrite is_latin1_lit. rewrite is_latin1_text, is_latin1_str_of_N.
    reflexivity.
Qed.

Lemma send_error_allow_run (s : Sock) :
  closed s = false ->
  Threaded.send_error w 405 (lit "Method Not Allowed")
                      (Some [lit "Allow: GET"]) None s
  = (Ok tt, after s (chunks (error_response w 405 "Method Not Allowed"
                                            [(lit "Allow", lit "GET")]))).
Proof.
  intros Hs. unfold Threaded.send_error. unfold bind at 1.
  replace (utf8_encode (Threaded.error_page 405 (lit "Method Not Allowed")))
    with (Some (body (error_response w 405 "Method Not Allowed"
                                     [(lit "Allow", lit "GET")])))
    by (vm_compute; reflexivity).
  cbn [of_option ret].
  apply (send_response_run w transport_ok _
           (error_response w 405 "Method Not Allowed" [(lit "Allow", lit "GET")])
           s Hs).
  - apply send_error_block_allow.
  - apply (threaded_response_latin1 w). constructor.
Qed.

Lemma serve_file_run (filepath : str) (s : Sock) :
  closed s = false ->
  Threaded.serve_file w filepath s
  = match read_file w filepath with
    | Ok content =>
        (Ok tt, after s (chunks (ok_response w
                   (content_type_for (guess_type w filepath)) content)))
    | Raise e => (Raise e, s)
    end.
Proof.
  intros Hs. unfold Threaded.serve_file. unfold bind at 1.
  destruct (read_file w filepath) as [content | e]; [|reflexivity].
  cbn [of_result ret].
  apply (send_response_run w transport_ok _
           (ok_response w (content_type_for (guess_type w filepath)) content)
           s Hs).
  - unfold content_type_for.
    destruct (guess_type w filepath) as [[|b bs]|]; apply serve_file_block.
  - apply (threaded_response_latin1 w). constructor.
Qed.

End ThreadedRuns.

(** * The branches of [handle_client] *)

Lemma split_crlf_go_nonempty (s : str) :
  forall cur, split_crlf_go cur s <> []
              /\ forall x, split_crlf_go cur (x :: s) <> [].
Proof.
  induction s as [|y s IH]; intros cur.
  - split; [|intros x]; discriminate.
  - split; [apply (IH cur)|].
    intros x. simpl. destruct ((x =? CR) && (y =? LF)); [discriminate|].
    apply (IH (x :: cur)).
Qed.

Lemma split_crlf_nonempty (s : str) : split_crlf s <> [].
Proof. apply (split_crlf_go_nonempty s []). Qed.

Section ThreadedBranches.

Variable root : str.
Variable w : World.

Lemma respond_empty : Threaded.respond root w [] = ret tt.
Proof. reflexivity. Qed.

Lemma respond_malformed (data : str) :
  data <> [] ->
  List.length (split_ws (request_line data)) <> 3%nat ->
  Threaded.respond root w data
  = Threaded.send_error w 400 (lit "Bad Request") None None.
Proof.
  intros Hd Hn. unfold Threaded.respond, request_line in *.
  destruct data as [|c data]; [contradiction|]. cbn [is_empty].
  destruct (split_crlf (c :: data)) as [|line rest] eqn:E;
    [now apply split_crlf_nonempty in E|].
  cbn [hd] in Hn.
  destruct (split_ws line) as [|a [|b [|d [|e l]]]]; try reflexivity.
  now contradiction Hn.
Qed.

Lemma respond_wellformed (data method path version : str) :
  split_ws (request_line data) = [method; path; version] ->
  Threaded.respond root w data
  = if negb (str_eqb method (lit "GET"))
    then Threaded.send_error w 405 (lit "Method Not Allowed")
                             (Some [lit "Allow: GET"]) None
    else match Threaded.safe_path root path with
         | None => Threaded.send_error w 404 (lit "Not Found") None None
         | Some filepath =>
             if is_empty filepath || negb (isfile w filepath)
             then Threaded.send_error w 404 (lit "Not Found") None None
             else Threaded.serve_file w filepath
         end.
Proof.
  intros Ht. unfold Threaded.respond, request_line in *.
  destruct data as [|c data]; [discriminate Ht|]. cbn [is_empty].
  destruct (split_crlf (c :: data)) as [|line rest] eqn:E;
    [now apply split_crlf_nonempty in E|].
  cbn [hd] in Ht. now rewrite Ht.
Qed.

(** What [handle_client] makes of the outcome of its [try] block. *)
Lemma handle_client_returned (s s' : Sock) :
  Threaded.attempt root w s = (Ok tt, s') ->
  Threaded.handle_client root w s = (Ok tt, shut s').
Proof.
  intros H. unfold Threaded.handle_client, try_finally, try_except.
  now rewrite H.
Qed.

Lemma handle_client_raised (e : exn) (s s' : Sock) :
  healthy w ->
  closed s' = false ->
  Threaded.attempt root w s = (Raise e, s') ->
  Threaded.handle_client root w s
  = (Ok tt, shut (after s' (chunks (error_response w 500 "Internal Server Error" [])))).
Proof.
  intros Hw Hs' H. unfold Threaded.handle_client, try_finally, try_except.
  rewrite H. cbn [any_exception].
  rewrite (send_error_run w Hw 500 "Internal Server Error" s' Hs')
    by (vm_compute; reflexivity).
  reflexivity.
Qed.

(** The [try] block, once the request text is known. *)
Lemma attempt_request (data : str) (s : Sock) :
  closed s = false ->
  request_text 4096 w = Some data ->
  Threaded.attempt root w s = Threaded.respond root w data s.
Proof.
  intros Hs Hr. unfold request_text in Hr.
  unfold Threaded.attempt, bind, recv. rewrite Hs.
  destruct (incoming w) as [b | e]; [|discriminate].
  now rewrite Hr.
Qed.

End ThreadedBranches.

(** * The branches of the single-threaded loop body *)

Section SingleBranches.

Variable w : World.

Lemma parse_malformed (line : str) :
  List.length (split_ws line) <> 3%nat ->
  Single.parse_request_line line = ret (lit "GET", lit "/", lit "HTTP/1.1").
Proof.
  intros Hn. unfold Single.parse_request_line.
  destruct (split_ws line) as [|a [|b [|d [|e l]]]]; try reflexivity.
  now contradiction Hn.
Qed.

Lemma parse_wellformed (line method path version : str) :
  split_ws line = [method; path; version] ->
  Single.parse_request_line line
  = if str_eqb method (lit "GET") then ret (method, path, version)
    else raise OSError.
Proof.
  intros Ht. unfold Single.parse_request_line. rewrite Ht.
  now destruct (str_eqb method (lit "GET")).
Qed.

Lemma first_line_or_empty (data : str) :
  hd [] (match splitlines data with [] => [[]] | l => l end) = first_line data.
Proof. unfold first_line. now destruct (splitlines data). Qed.

(** The [try] block, once the request text is known. *)
Lemma request_parsed (data : str) (s : Sock) :
  closed s = false ->
  request_text 2048 w = Some data ->
  data <> [] ->
  Single.request w s
  = (parsed <- Single.parse_request_line (first_line data) ;;
     Single.serve_path w (snd (fst parsed))) s.
Proof.
  intros Hs Hr Hd. unfold request_text in Hr.
  unfold Single.request. unfold bind at 1. unfold recv. rewrite Hs.
  destruct (incoming w) as [b | e]; [|discriminate].
  unfold bind at 1. rewrite Hr. cbn [of_option ret].
  destruct data as [|c data]; [contradiction|]. cbn [is_empty].
  rewrite first_line_or_empty. unfold bind.
  destruct (Single.parse_request_line (first_line (c :: data)) s)
    as [[[[m p] v]|e] s']; reflexivity.
Qed.

Hypothesis transport_ok : healthy w.

Lemma serve_path_run (path : str) (s : Sock) :
  closed s = false ->
  Single.serve_path w path s
  = match Single.read_content w (Single.request_filepath path) with
    | Ok content =>
        (Ok tt, after s (chunks (single_ok_response
                   (Single.content_type_of w (Single.request_filepath path))
                   content)))
    | Raise e => (Raise e, s)
    end.
Proof.
  intros Hs. unfold Single.serve_path. unfold bind at 1.
  destruct (Single.read_content w (Single.request_filepath path))
    as [content | e]; [|reflexivity].
  cbn [of_result ret].
  apply (send_response_run w transport_ok _
           (single_ok_response
              (Single.content_type_of w (Single.request_filepath path)) content)
           s Hs).
  - apply (single_block 200 (lit "OK")).
  - apply (single_response_latin1 w). left. now eexists _, _.
Qed.

Lemma not_found_run (s : Sock) :
  closed s = false ->
  Single.not_found w s = (Ok tt, after s (chunks single_not_found_response)).
Proof.
  intros Hs. unfold Single.not_found.
  apply (send_response_run w transport_ok _ single_not_found_response s Hs).
  - apply (single_block 404 (lit "Not Found")).
  - apply (single_response_latin1 w). now right.
Qed.

End SingleBranches.

(** * Every run on a healthy transport *)

Lemma threaded_attempt_cases (root : str) (w : World) :
  healthy w ->
  Threaded.attempt root w fresh_sock = (Ok tt, fresh_sock)
  \/ (exists e, Threaded.attempt root w fresh_sock = (Raise e, fresh_sock))
  \/ exists r, threaded_response w r
               /\ Threaded.attempt root w fresh_sock
                  = (Ok tt, after fresh_sock (chunks r)).
Proof.
  intros Hw.
  destruct (request_text 4096 w) as [data|] eqn:Hr.
  - rewrite (attempt_request root w data fresh_sock eq_refl Hr).
    destruct data as [|c data]; [now left|].
    set (d := c :: data) in *. assert (Hd : d <> []) by discriminate.
    destruct (split_ws (request_line d)) as [|m [|p [|v [|x l]]]] eqn:Ht;
      try (rewrite (respond_malformed root w d Hd) by (rewrite Ht; discriminate);
           rewrite (send_error_run w Hw) by (reflexivity || (vm_compute; reflexivity));
           responded).
    rewrite (respond_wellformed root w d m p v Ht).
    destruct (negb (str_eqb m (lit "GET"))).
    + rewrite (send_error_allow_run w Hw) by reflexivity.
      responded.
    + assert (H404 : Threaded.send_error w 404 (lit "Not Found") None None fresh_sock
                     = (Ok tt, after fresh_sock
                                 (chunks (error_response w 404 "Not Found" [])))).
      { apply (send_error_run w Hw); [reflexivity | vm_compute; reflexivity]. }
      destruct (Threaded.safe_path root p) as [filepath|].
      * destruct (is_empty filepath || negb (isfile w filepath)).
        -- rewrite H404.
           responded.
        -- rewrite (serve_file_run w Hw) by reflexivity.
           destruct (read_file w filepath) as [content|e].
           ++ responded.
           ++ right; left. now exists e.
      * rewrite H404.
        responded.
  - right; left. unfold request_text in Hr.
    unfold Threaded.attempt, bind, recv. cbn [closed fresh_sock].
    destruct (incoming w) as [b|e].
    + destruct (utf8_decode_ignore (firstn 4096 b)) as [s Hs]. congruence.
    + now exists e.
Qed.

Lemma threaded_cases (root : str) (w : World) :
  healthy w ->
  Threaded.handle_client root w fresh_sock = (Ok tt, shut fresh_sock)
  \/ exists r, threaded_response w r
               /\ Threaded.handle_client root w fresh_sock
                  = (Ok tt, shut (after fresh_sock (chunks r))).
Proof.
  intros Hw.
  destruct (threaded_attempt_cases root w Hw) as [H | [[e H] | [r [Hr H]]]].
  - left. now apply handle_client_returned.
  - right. eexists. split; [apply threaded_500|].
    now apply (handle_client_raised root w e).
  - right. exists r. split; [exact Hr|]. now apply handle_client_returned.
Qed.

Lemma single_request_cases (w : World) :
  healthy w ->
  Single.request w fresh_sock = (Ok tt, fresh_sock)
  \/ (exists e, Single.request w fresh_sock = (Raise e, fresh_sock))
  \/ exists content_type content,
       Single.request w fresh_sock
       = (Ok tt, after fresh_sock
                   (chunks (single_ok_response content_type content))).
Proof.
  intros Hw.
  destruct (request_text 2048 w) as [data|] eqn:Hr.
  - destruct data as [|c data].
    + left. unfold request_text in Hr.
      unfold Single.request, bind, recv. cbn [closed fresh_sock].
      destruct (incoming w) as [b|e]; [|discriminate]. now rewrite Hr.
    + rewrite (request_parsed w (c :: data) fresh_sock eq_refl Hr)
        by discriminate.
      unfold bind.
      destruct (Single.parse_request_line (first_line (c :: data)) fresh_sock)
        as [[parsed|e] s'] eqn:Hp.
      * assert (s' = fresh_sock) as ->.
        { unfold Single.parse_request_line, try_except in Hp.
          destruct (split_ws _) as [|m [|p [|v [|x l]]]];
            try (injection Hp as _ <-; reflexivity).
          destruct (negb (str_eqb m (lit "GET")));
            cbn in Hp; now injection Hp as _ <-. }
        rewrite (serve_path_run w Hw) by reflexivity.
        destruct (Single.read_content _ _) as [content|e].
        -- right; right. now eexists _, _.
        -- right; left. now exists e.
      * right; left. exists e. f_equal.
        unfold Single.parse_request_line, try_except in Hp.
        destruct (split_ws _) as [|m [|p [|v [|x l]]]];
          try discriminate Hp.
        destruct (negb (str_eqb m (lit "GET")));
          cbn in Hp; [now injection Hp as _ <- | discriminate Hp].
  - right; left. unfold request_text in Hr.
    unfold Single.request, bind, recv. cbn [closed fresh_sock].
    destruct (incoming w) as [b|e].
    + destruct (utf8_decode_ignore (firstn 2048 b)) as [s Hs]. congruence.
    + now exists e.
Qed.


Lemma normpath_nonempty (p : str) : is_empty (normpath p) = false.
Proof.
  unfold normpath. destruct (is_empty p); [reflexivity|].
  cbv zeta.
  match goal with
  | |- context [if is_empty ?x then DOT else _] => destruct x
  end; reflexivity.
Qed.

Lemma safe_path_nonempty (root url_path filepath : str) :
  Threaded.safe_path root url_path = Some filepath -> is_empty filepath = false.
Proof.
  unfold Threaded.safe_path.
  destruct (negb (startswith _ root)); [discriminate|].
  intros H. injection H as <-. apply normpath_nonempty.
Qed.

Lemma single_connection_parsed (w : World) (data m p v : str) :
  healthy w ->
  request_text 2048 w = Some data ->
  data <> [] ->
  Single.parse_request_line (first_line data) = ret (m, p, v) ->
  Single.serve_connection w fresh_sock = single_reply w p.
Proof.
  intros Hw Hr Hd Hp. unfold Single.serve_connection, try_finally, try_except.
  rewrite (request_parsed w data fresh_sock eq_refl Hr Hd).
  unfold bind. rewrite Hp. cbn [ret fst snd].
  rewrite (serve_path_run w Hw) by reflexivity.
  unfold single_reply.
  destruct (Single.read_content _ _) as [content|e]; [reflexivity|].
  destruct (is_IOError e); [|reflexivity].
  now rewrite (not_found_run w Hw) by reflexivity.
Qed.

Lemma single_connection_refused (w : World) (data : str) :
  healthy w ->
  request_text 2048 w = Some data ->
  data <> [] ->
  Single.parse_request_line (first_line data) = raise OSError ->
  Single.serve_connection w fresh_sock
  = (Ok tt, shut (after fresh_sock (chunks single_not_found_response))).
Proof.
  intros Hw Hr Hd Hp. unfold Single.serve_connection, try_finally, try_except.
  rewrite (request_parsed w data fresh_sock eq_refl Hr Hd).
  unfold bind. rewrite Hp. cbn [raise is_IOError].
  now rewrite (not_found_run w Hw) by reflexivity.
Qed.

(** * The claims about the handlers *)

(** C9: when [recv] returns no bytes, both servers send nothing, close the
    socket and end normally; the single-threaded loop goes on to the next
    connection. *)
Theorem C9_empty_input_is_silent (root : str) (w : World) :
  incoming w = Ok [] ->
  Threaded.handle_client root w fresh_sock
  = (Ok tt, {| sent := []; calls := 0; closed := true |})
  /\ Single.serve_connection w fresh_sock
     = (Ok tt, {| sent := []; calls := 0; closed := true |})
  /\ forall rest,
       Single.serve_forever (w :: rest)
       = ({| sent := []; calls := 0; closed := true |}
            :: fst (Single.serve_forever rest),
          snd (Single.serve_forever rest)).
Proof.
  intros H.
  assert (Hs : Single.serve_connection w fresh_sock
               = (Ok tt, {| sent := []; calls := 0; closed := true |})).
  { unfold Single.serve_connection, try_finally, try_except, Single.request,
      bind, recv. cbn [closed fresh_sock]. rewrite H. reflexivity. }
  split; [|split; [exact Hs|]].
  - unfold Threaded.handle_client, try_finally, try_except, Threaded.attempt,
      bind, recv. cbn [closed fresh_sock]. rewrite H. reflexivity.
  - intros rest. cbn [Single.serve_forever]. rewrite Hs.
    now destruct (Single.serve_forever rest).
Qed.

(** C9 at a concrete input: the client of an otherwise ordinary site sends nothing. *)
Lemma C9_witness :
  incoming (site []) = Ok []
  /\ Threaded.handle_client WEB_ROOT (site []) fresh_sock
     = (Ok tt, {| sent := []; calls := 0; closed := true |})
  /\ Single.serve_connection (site []) fresh_sock
     = (Ok tt, {| sent := []; calls := 0; closed := true |}).
Proof.
  split; [reflexivity|].
  destruct (C9_empty_input_is_silent WEB_ROOT (site []) eq_refl) as [H1 [H2 _]].
  split; [exact H1 | exact H2].
Defined.

(** C2, where the claim fails: the single-threaded server answers the
    one-token request line HELLO with status 200 and its default page; the
    multithreaded server, receiving the single byte FF (which decodes to the
    empty text), sends nothing. *)
Lemma C2_answered_without_400 :
  let w := site (request_bytes "HELLO") in
  request_text 2048 w = Some (lit "HELLO" ++ CRLF ++ CRLF)
  /\ split_ws (first_line (lit "HELLO" ++ CRLF ++ CRLF)) = [lit "HELLO"]
  /\ Single.serve_connection w fresh_sock
     = (Ok tt, shut (after fresh_sock
          (chunks (single_ok_response (lit "text/html; charset=utf-8")
                     (list_byte_of_string "<p>hi</p>" ++ [x0a])))))
  /\ option_map status
       (parse_response (wire (snd (Single.serve_connection w fresh_sock))))
     = Some 200
  /\ request_text 4096 (site [xff]) = Some []
  /\ split_ws (request_line []) = []
  /\ Threaded.handle_client WEB_ROOT (site [xff]) fresh_sock
     = (Ok tt, shut fresh_sock).
Proof. repeat split; vm_compute; reflexivity. Qed.

(** C2, amended.  Multithreaded server, transport working: when the text
    received is not empty and its first line (up to the first CR LF) does not
    split into exactly three tokens, the answer is the 400 response.
    Single-threaded server: such a request (first line as [splitlines] gives
    it) is answered as GET / is. *)
Theorem C2_malformed_request_line :
  (forall root w data,
      healthy w ->
      request_text 4096 w = Some data ->
      data <> [] ->
      List.length (split_ws (request_line data)) <> 3%nat ->
      Threaded.handle_client root w fresh_sock
      = (Ok tt, shut (after fresh_sock
                        (chunks (error_response w 400 "Bad Request" [])))))
  /\ (forall w data,
        healthy w ->
        request_text 2048 w = Some data ->
        data <> [] ->
        List.length (split_ws (first_line data)) <> 3%nat ->
        Single.serve_connection w fresh_sock = single_reply w (lit "/")).
Proof.
  split.
  - intros root w data Hw Hr Hd Hn.
    apply handle_client_returned.
    rewrite (attempt_request root w data fresh_sock eq_refl Hr).
    rewrite (respond_malformed root w data Hd Hn).
    apply (send_error_run w Hw); [reflexivity | vm_compute; reflexivity].
  - intros w data Hw Hr Hd Hn.
    apply (single_connection_parsed w data (lit "GET") (lit "/") (lit "HTTP/1.1")
             Hw Hr Hd).
    now apply parse_malformed.
Qed.

(** C2 at a concrete input: the two-token line GET /index.html for the multithreaded server, the one-token line HELLO for the single-threaded one. *)
Lemma C2_witness :
  let w := site (request_bytes "GET /index.html") in
  let w' := site (request_bytes "HELLO") in
  Threaded.handle_client WEB_ROOT w fresh_sock
  = (Ok tt, shut (after fresh_sock (chunks (error_response w 400 "Bad Request" []))))
  /\ Single.serve_connection w' fresh_sock = single_reply w' (lit "/").
Proof.
  split.
  - apply (proj1 C2_malformed_request_line WEB_ROOT
             (site (request_bytes "GET /index.html"))
             (lit "GET /index.html" ++ CRLF ++ CRLF)).
    + intros k. reflexivity.
    + vm_compute. reflexivity.
    + discriminate.
    + vm_compute. discriminate.
  - apply (proj2 C2_malformed_request_line
             (site (request_bytes "HELLO")) (lit "HELLO" ++ CRLF ++ CRLF)).
    + intros k. reflexivity.
    + vm_compute. reflexivity.
    + discriminate.
    + vm_compute. discriminate.
Defined.

(** C3, where the claim fails: the single-threaded server answers
    POST /index.html HTTP/1.1 with its 404 response, which has no Allow
    header. *)
Lemma C3_single_answers_404 :
  let w := site (request_bytes "POST /index.html HTTP/1.1") in
  let reply := parse_response (wire (snd (Single.serve_connection w fresh_sock))) in
  request_text 2048 w = Some (lit "POST /index.html HTTP/1.1" ++ CRLF ++ CRLF)
  /\ split_ws (first_line (lit "POST /index.html HTTP/1.1" ++ CRLF ++ CRLF))
     = [lit "POST"; lit "/index.html"; lit "HTTP/1.1"]
  /\ Single.serve_connection w fresh_sock
     = (Ok tt, shut (after fresh_sock (chunks single_not_found_response)))
  /\ option_map status reply = Some 404
  /\ option_map (fun r => header (lit "Allow") (headers r)) reply = Some None.
Proof. repeat split; vm_compute; reflexivity. Qed.

(** C3, amended.  Multithreaded server, transport working: a request line of
    three tokens whose method is not GET is answered with status 405 and the
    header Allow: GET.  Single-threaded server: it is answered with the 404
    response. *)
Theorem C3_method_other_than_get :
  (forall root w data method path version,
      healthy w ->
      request_text 4096 w = Some data ->
      split_ws (request_line data) = [method; path; version] ->
      method <> lit "GET" ->
      let r := error_response w 405 "Method Not Allowed" [(lit "Allow", lit "GET")] in
      Threaded.handle_client root w fresh_sock
      = (Ok tt, shut (after fresh_sock (chunks r)))
      /\ status r = 405
      /\ header (lit "Allow") (headers r) = Some (lit "GET"))
  /\ (forall w data method path version,
        healthy w ->
        request_text 2048 w = Some data ->
        split_ws (first_line data) = [method; path; version] ->
        method <> lit "GET" ->
        Single.serve_connection w fresh_sock
        = (Ok tt, shut (after fresh_sock (chunks single_not_found_response)))).
Proof.
  split.
  - intros root w data m p v Hw Hr Ht Hm r.
    split; [|split; reflexivity].
    apply handle_client_returned.
    rewrite (attempt_request root w data fresh_sock eq_refl Hr).
    rewrite (respond_wellformed root w data m p v Ht).
    destruct (str_eqb m (lit "GET")) eqn:E;
      [apply str_eqb_eq in E; contradiction|].
    cbn [negb]. now apply (send_error_allow_run w Hw).
  - intros w data m p v Hw Hr Ht Hm.
    assert (Hd : data <> []) by (intros ->; discriminate Ht).
    apply (single_connection_refused w data Hw Hr Hd).
    rewrite (parse_wellformed _ m p v Ht).
    destruct (str_eqb m (lit "GET")) eqn:E;
      [apply str_eqb_eq in E; contradiction | reflexivity].
Qed.

(** C3 at a concrete input: POST /index.html HTTP/1.1 sent to either server. *)
Lemma C3_witness :
  let w := site (request_bytes "POST /index.html HTTP/1.1") in
  let r := error_response w 405 "Method Not Allowed" [(lit "Allow", lit "GET")] in
  (Threaded.handle_client WEB_ROOT w fresh_sock
   = (Ok tt, shut (after fresh_sock (chunks r)))
   /\ status r = 405
   /\ header (lit "Allow") (headers r) = Some (lit "GET"))
  /\ Single.serve_connection w fresh_sock
     = (Ok tt, shut (after fresh_sock (chunks single_not_found_response))).
Proof.
  split.
  - apply (proj1 C3_method_other_than_get WEB_ROOT
             (site (request_bytes "POST /index.html HTTP/1.1"))
             (lit "POST /index.html HTTP/1.1" ++ CRLF ++ CRLF)
             (lit "POST") (lit "/index.html") (lit "HTTP/1.1")).
    + intros k. reflexivity.
    + vm_compute. reflexivity.
    + vm_compute. reflexivity.
    + discriminate.
  - apply (proj2 C3_method_other_than_get
             (site (request_bytes "POST /index.html HTTP/1.1"))
             (lit "POST /index.html HTTP/1.1" ++ CRLF ++ CRLF)
             (lit "POST") (lit "/index.html") (lit "HTTP/1.1")).
    + intros k. reflexivity.
    + vm_compute. reflexivity.
    + vm_compute. reflexivity.
    + discriminate.
Defined.

Lemma content_type_for_entry (b : byte) (bs : bytes) :
  content_type_for (Some (b :: bs)) = text (b :: bs)
  \/ content_type_for (Some (b :: bs)) = text (b :: bs) ++ lit "; charset=utf-8".
Proof.
  unfold content_type_for.
  destruct (startswith (text (b :: bs)) (lit "text/")); [now right | now left].
Qed.

(** C4.  The multithreaded server sends a file as it is on disk, with its
    length and with its MIME table entry (followed by the charset annotation
    when the entry is a text type).  The single-threaded server, at a failing
    input: index.html holds the eleven bytes of <p>hi</p> CR LF; the body
    sent is the ten bytes of <p>hi</p> LF, with Content-Length: 10. *)
Theorem C4_file_round_trip :
  (forall root w data path version filepath content,
      healthy w ->
      request_text 4096 w = Some data ->
      split_ws (request_line data) = [lit "GET"; path; version] ->
      Threaded.safe_path root path = Some filepath ->
      isfile w filepath = true ->
      read_file w filepath = Ok content ->
      let r := ok_response w (content_type_for (guess_type w filepath)) content in
      Threaded.handle_client root w fresh_sock
      = (Ok tt, shut (after fresh_sock (chunks r)))
      /\ status r = 200
      /\ body r = content
      /\ header (lit "Content-Length") (headers r) = Some (str_of_N (len content))
      /\ header (lit "Content-Type") (headers r)
         = Some (content_type_for (guess_type w filepath))
      /\ forall b bs, guess_type w filepath = Some (b :: bs) ->
           content_type_for (guess_type w filepath) = text (b :: bs)
           \/ content_type_for (guess_type w filepath)
              = text (b :: bs) ++ lit "; charset=utf-8")
  /\ (let w := site (request_bytes "GET /index.html HTTP/1.1") in
      let reply := parse_response (wire (snd (Single.serve_connection w fresh_sock))) in
      read_file w (Single.request_filepath (lit "/index.html"))
      = Ok (list_byte_of_string "<p>hi</p>" ++ [x0d; x0a])
      /\ option_map status reply = Some 200
      /\ option_map body reply = Some (list_byte_of_string "<p>hi</p>" ++ [x0a])
      /\ option_map (fun r => header (lit "Content-Length") (headers r)) reply
         = Some (Some (lit "10"))).
Proof.
  split; [|repeat split; vm_compute; reflexivity].
  intros root w data path version filepath content Hw Hr Ht Hs Hf Hc r.
  split; [|repeat split; try reflexivity].
  - apply handle_client_returned.
    rewrite (attempt_request root w data fresh_sock eq_refl Hr).
    rewrite (respond_wellformed root w data _ path version Ht).
    rewrite str_eqb_refl. cbn [negb].
    rewrite Hs, (safe_path_nonempty root path filepath Hs), Hf. cbn [negb orb].
    rewrite (serve_file_run w Hw) by reflexivity. now rewrite Hc.
  - intros b bs ->. apply content_type_for_entry.
Qed.

(** C4 at a concrete input: GET /index.html HTTP/1.1 sent to the multithreaded server. *)
Lemma C4_witness :
  let w := site (request_bytes "GET /index.html HTTP/1.1") in
  Threaded.handle_client WEB_ROOT w fresh_sock
  = (Ok tt, shut (after fresh_sock
       (chunks (ok_response w (content_type_for (guess_type w (lit "/srv/www/index.html")))
                            page)))).
Proof.
  apply (proj1 C4_file_round_trip WEB_ROOT
           (site (request_bytes "GET /index.html HTTP/1.1"))
           (lit "GET /index.html HTTP/1.1" ++ CRLF ++ CRLF)
           (lit "/index.html") (lit "HTTP/1.1") (lit "/srv/www/index.html") page).
  - intros k. reflexivity.
  - vm_compute. reflexivity.
  - vm_compute. reflexivity.
  - vm_compute. reflexivity.
  - vm_compute. reflexivity.
  - vm_compute. reflexivity.
Defined.

(** C5, where the claim fails: when the read of the requested file raises an
    I/O error, the single-threaded server answers 404, not 500; and when the
    file is a text file that is not UTF-8 the UnicodeDecodeError leaves the
    loop, so the next connection is never served. *)
Lemma C5_single_has_no_500 :
  let w := failing_disk (request_bytes "GET /index.html HTTP/1.1") in
  let reply := parse_response (wire (snd (Single.serve_connection w fresh_sock))) in
  let w' := site (request_bytes "GET /latin.html HTTP/1.1") in
  Single.read_content w (Single.request_filepath (lit "/index.html")) = Raise OSError
  /\ option_map status reply = Some 404
  /\ Single.serve_connection w' fresh_sock = (Raise UnicodeDecodeError, shut fresh_sock)
  /\ Single.serve_forever [w'; w] = ([shut fresh_sock], Some UnicodeDecodeError).
Proof. repeat split; vm_compute; reflexivity. Qed.

(** C5, amended.  Multithreaded server: whatever the world and the socket,
    [handle_client] returns normally with the socket closed; on a working
    transport, a failure of its [try] block (a failing [recv], a failing read
    of the file) is answered with the 500 response.  Single-threaded server,
    on a working transport: an [IOError] in the [try] block is answered with
    the 404 response, the socket is closed, and the loop goes on to the
    connections that follow; there is no 500 response in that server. *)
Theorem C5_failures_at_the_handler_boundary :
  (forall root w s,
      exists s', Threaded.handle_client root w s = (Ok tt, s') /\ closed s' = true)
  /\ (forall root w e,
        healthy w ->
        fst (Threaded.attempt root w fresh_sock) = Raise e ->
        Threaded.handle_client root w fresh_sock
        = (Ok tt, shut (after fresh_sock
             (chunks (error_response w 500 "Internal Server Error" [])))))
  /\ (forall root w e,
        incoming w = Raise e ->
        fst (Threaded.attempt root w fresh_sock) = Raise e)
  /\ (forall root w data path version filepath e,
        healthy w ->
        request_text 4096 w = Some data ->
        split_ws (request_line data) = [lit "GET"; path; version] ->
        Threaded.safe_path root path = Some filepath ->
        isfile w filepath = true ->
        read_file w filepath = Raise e ->
        fst (Threaded.attempt root w fresh_sock) = Raise e)
  /\ (forall w e,
        healthy w ->
        fst (Single.request w fresh_sock) = Raise e ->
        is_IOError e = true ->
        Single.serve_connection w fresh_sock
        = (Ok tt, shut (after fresh_sock (chunks single_not_found_response)))
        /\ forall rest,
             Single.serve_forever (w :: rest)
             = (shut (after fresh_sock (chunks single_not_found_response))
                  :: fst (Single.serve_forever rest),
                snd (Single.serve_forever rest))).
Proof.
  split; [|split; [|split; [|split]]].
  - intros root w s.
    unfold Threaded.handle_client, try_finally, try_except, close.
    destruct (Threaded.attempt root w s) as [[[]|e] s'].
    + eexists. split; reflexivity.
    + cbn [any_exception].
      destruct (Threaded.send_error w 500 _ None None s') as [[[]|e'] s''];
        eexists; split; reflexivity.
  - intros root w e Hw He.
    destruct (threaded_attempt_cases root w Hw) as [H | [[e' H] | [r [_ H]]]];
      rewrite H in He; try discriminate He.
    now apply (handle_client_raised root w e').
  - intros root w e H. unfold Threaded.attempt, bind, recv.
    cbn [closed fresh_sock]. now rewrite H.
  - intros root w data path version filepath e Hw Hr Ht Hs Hf Hc.
    rewrite (attempt_request root w data fresh_sock eq_refl Hr).
    rewrite (respond_wellformed root w data _ path version Ht).
    rewrite str_eqb_refl. cbn [negb].
    rewrite Hs, (safe_path_nonempty root path filepath Hs), Hf. cbn [negb orb].
    rewrite (serve_file_run w Hw) by reflexivity. now rewrite Hc.
  - intros w e Hw He Hio.
    assert (E : Single.serve_connection w fresh_sock
                = (Ok tt, shut (after fresh_sock (chunks single_not_found_response)))).
    { unfold Single.serve_connection, try_finally, try_except.
      destruct (single_request_cases w Hw) as [H | [[e' H] | [ct [c H]]]];
        rewrite H in He |- *; try discriminate He.
      cbn [fst] in He. injection He as ->. rewrite Hio.
      now rewrite (not_found_run w Hw) by reflexivity. }
    split; [exact E|].
    intros rest. cbn [Single.serve_forever]. rewrite E.
    now destruct (Single.serve_forever rest).
Qed.

(** C5 at a concrete input: GET /index.html HTTP/1.1 on a disk whose reads all fail. *)
Lemma C5_witness :
  let w := failing_disk (request_bytes "GET /index.html HTTP/1.1") in
  Threaded.handle_client WEB_ROOT w fresh_sock
  = (Ok tt, shut (after fresh_sock
       (chunks (error_response w 500 "Internal Server Error" []))))
  /\ Single.serve_connection w fresh_sock
     = (Ok tt, shut (after fresh_sock (chunks single_not_found_response))).
Proof.
  destruct C5_failures_at_the_handler_boundary as [_ [H500 [_ [_ H404]]]].
  split.
  - apply (H500 WEB_ROOT _ OSError); [intros k; reflexivity | vm_compute; reflexivity].
  - refine (proj1 (H404 _ OSError _ _ _));
      [intros k; reflexivity | vm_compute; reflexivity | reflexivity].
Defined.






(** * The responses as a client reads them *)

(** The 200 response of the multithreaded server for index.html, read back
    from the bytes on the wire. *)
Example index_page_on_the_wire :
  parse_response
    (wire (snd (Threaded.handle_client WEB_ROOT
                  (site (request_bytes "GET /index.html HTTP/1.1")) fresh_sock)))
  = Some {| status := 200;
            reason := lit "OK";
            headers := [ (lit "Date", lit "Tue, 03 Nov 2026 09:00:00 GMT");
                         (lit "Server", lit "CS538Toy/1.0");
                         (lit "Content-Type", lit "text/html; charset=utf-8");
                         (lit "Content-Length", lit "11");
                         (lit "Connection", lit "close") ];
            body := list_byte_of_string "<p>hi</p>" ++ [x0d; x0a] |}.
Proof. vm_compute. reflexivity. Qed.

(** The 405 response, with its Allow header after Connection. *)
Example post_on_the_wire :
  option_map (fun r => (status r, reason r, map fst (headers r),
                        header (lit "Allow") (headers r), body r))
    (parse_response
       (wire (snd (Threaded.handle_client WEB_ROOT
                     (site (request_bytes "POST /index.html HTTP/1.1")) fresh_sock))))
  = Some (405, lit "Method Not Allowed",
          [lit "Date"; lit "Server"; lit "Content-Type"; lit "Content-Length";
           lit "Connection"; lit "Allow"],
          Some (lit "GET"),
          list_byte_of_string "<html><body><h1>405 Method Not Allowed</h1></body></html>").
Proof. vm_compute. reflexivity. Qed.

(** A transport that fails on the body: the 200 head is out, the body is cut
    after three bytes, and the 500 response follows on the same socket. *)
Example body_cut_short :
  let w := {| incoming := Ok (request_bytes "GET /index.html HTTP/1.1");
              transport := fun k => if (k =? 1)%nat then Some 3%nat else None;
              date := list_byte_of_string "Tue, 03 Nov 2026 09:00:00 GMT";
              guess_type := html_type;
              isfile := fun _ => true;
              read_file := fun _ => Ok page |} in
  let s := snd (Threaded.handle_client WEB_ROOT w fresh_sock) in
  fst (Threaded.handle_client WEB_ROOT w fresh_sock) = Ok tt
  /\ closed s = true
  /\ calls s = 4%nat
  /\ nth 1 (sent s) [] = list_byte_of_string "<p>"
  /\ nth 3 (sent s) []
     = list_byte_of_string "<html><body><h1>500 Internal Server Error</h1></body></html>".
Proof. repeat split; vm_compute; reflexivity. Qed.

(** * Splitting and joining *)

Lemma split_char_go_cur (c : char) (s cur : str) :
  split_char_go c cur s
  = match split_char c s with
    | h :: t => (rev cur ++ h) :: t
    | [] => [rev cur]
    end.
Proof.
  unfold split_char. revert cur; induction s as [|x s IH]; intros cur; simpl.
  - now rewrite app_nil_r.
  - destruct (x =? c).
    + now rewrite app_nil_r.
    + rewrite (IH (x :: cur)), (IH [x]).
      destruct (split_char_go c [] s) as [|h t]; simpl;
        now rewrite <- ?app_assoc.
Qed.

Lemma split_char_cons (c x : char) (s : str) :
  split_char c (x :: s)
  = if x =? c then [] :: split_char c s
    else match split_char c s with
         | h :: t => (x :: h) :: t
         | [] => [[x]]
         end.
Proof.
  unfold split_char at 1. simpl. destruct (x =? c); [reflexivity|].
  now rewrite split_char_go_cur.
Qed.

Lemma split_char_nonempty (c : char) (s : str) : split_char c s <> [].
Proof.
  destruct s as [|x s]; [discriminate|]. rewrite split_char_cons.
  destruct (x =? c); [discriminate|]. now destruct (split_char c s).
Qed.

(** Cutting at a separator: the pieces of the two sides, side by side. *)
Lemma split_char_app (c : char) (a b : str) :
  split_char c (a ++ c :: b) = split_char c a ++ split_char c b.
Proof.
  induction a as [|x a IH].
  - simpl. rewrite split_char_cons, N.eqb_refl. reflexivity.
  - simpl. rewrite !split_char_cons, IH. destruct (x =? c); [reflexivity|].
    pose proof (split_char_nonempty c a).
    now destruct (split_char c a).
Qed.

Lemma split_char_free (c : char) (a : str) :
  forallb (fun x => negb (x =? c)) a = true -> split_char c a = [a].
Proof.
  induction a as [|x a IH]; [reflexivity|]. simpl. intros H.
  apply andb_true_iff in H as [Hx Ha]. rewrite split_char_cons, (IH Ha).
  now destruct (x =? c).
Qed.

(** Joining then splitting gives the parts back. *)
Lemma split_char_join (c : char) (parts : list str) :
  parts <> [] ->
  forallb (fun p => forallb (fun x => negb (x =? c)) p) parts = true ->
  split_char c (join [c] parts) = parts.
Proof.
  induction parts as [|p parts IH]; [congruence|]. intros _ H. simpl in H.
  apply andb_true_iff in H as [Hp Hparts].
  destruct parts as [|q parts]; [now apply split_char_free|].
  change (join [c] (p :: q :: parts)) with (p ++ c :: join [c] (q :: parts)).
  rewrite split_char_app, (split_char_free c p Hp), IH; [reflexivity | discriminate | exact Hparts].
Qed.

(** Splitting then joining gives the text back. *)
Lemma join_split_char (c : char) (s : str) : join [c] (split_char c s) = s.
Proof.
  induction s as [|x s IH]; [reflexivity|]. rewrite split_char_cons.
  destruct (x =? c) eqn:E.
  - apply N.eqb_eq in E; subst x.
    pose proof (split_char_nonempty c s).
    destruct (split_char c s) as [|h t] eqn:Es; [contradiction|].
    change (join [c] ([] :: h :: t)) with (c :: join [c] (h :: t)).
    now rewrite IH.
  - pose proof (split_char_nonempty c s).
    destruct (split_char c s) as [|h t] eqn:Es; [contradiction|].
    destruct t as [|h' t]; simpl in *; now rewrite <- IH.
Qed.

Lemma split_char_slash_free (c : char) (s : str) :
  forallb (fun p => forallb (fun x => negb (x =? c)) p) (split_char c s) = true.
Proof.
  induction s as [|x s IH]; [reflexivity|]. rewrite split_char_cons.
  destruct (x =? c) eqn:E; [exact IH|].
  destruct (split_char c s) as [|h t]; simpl in *; now rewrite E.
Qed.

Lemma join_app (sep : str) (a b : list str) :
  a <> [] -> b <> [] -> join sep (a ++ b) = join sep a ++ sep ++ join sep b.
Proof.
  intros Ha Hb. induction a as [|p a IH]; [congruence|].
  destruct a as [|q a].
  - destruct b; [congruence | reflexivity].
  - change (join sep ((p :: q :: a) ++ b)) with (p ++ sep ++ join sep ((q :: a) ++ b)).
    rewrite IH by discriminate.
    change (join sep (p :: q :: a)) with (p ++ sep ++ join sep (q :: a)).
    now rewrite <- !app_assoc.
Qed.

(** * Normalisation *)

Lemma str_eqb_nil (c : str) : str_eqb c [] = is_empty c.
Proof. now destruct c. Qed.

Lemma norm_comps_proper (n : nat) (comps acc : list str) :
  forallb proper comps = true -> norm_comps n acc comps = acc ++ comps.
Proof.
  revert acc; induction comps as [|c comps IH]; intros acc H; simpl.
  - now rewrite app_nil_r.
  - simpl in H. apply andb_true_iff in H as [Hc Hcomps].
    unfold proper in Hc. rewrite str_eqb_nil.
    destruct (is_empty c); [discriminate|].
    destruct (str_eqb c DOT); [discriminate|].
    destruct (str_eqb c DOTDOT); [discriminate|]. simpl.
    rewrite (IH _ Hcomps). now rewrite <- app_assoc.
Qed.

Lemma forallb_last (f : str -> bool) (l : list str) :
  l <> [] -> forallb f l = true -> f (last l []) = true.
Proof.
  intros Hl H. destruct (exists_last Hl) as [l' [x ->]].
  rewrite last_last. rewrite forallb_app in H.
  apply andb_true_iff in H as [_ H]. simpl in H. now rewrite andb_true_r in H.
Qed.

Lemma forallb_removelast (f : str -> bool) (l : list str) :
  forallb f l = true -> forallb f (removelast l) = true.
Proof.
  intros H. destruct l as [|y l]; [reflexivity|].
  destruct (@exists_last _ (y :: l)) as [l' [x E]]; [discriminate|].
  rewrite E in *. rewrite removelast_last. rewrite forallb_app in H.
  now apply andb_true_iff in H as [H _].
Qed.

(** Below a leading slash, [normpath] keeps no empty, [.] or [..] component. *)
Lemma norm_comps_keeps (f : str -> bool) (n : nat) (comps acc : list str) :
  n <> 0%nat ->
  (forall c, f c = true -> proper c = true) ->
  (forall c, proper c = true -> forallb (fun x => negb (x =? SLASH)) c = true ->
             f c = true) ->
  forallb (fun p => forallb (fun x => negb (x =? SLASH)) p) comps = true ->
  forallb f acc = true ->
  forallb f (norm_comps n acc comps) = true.
Proof.
  intros Hn Hfp Hpf. revert acc; induction comps as [|c comps IH];
    intros acc Hs Hacc; simpl; [exact Hacc|].
  simpl in Hs. apply andb_true_iff in Hs as [Hc Hs].
  destruct (str_eqb c [] || str_eqb c DOT) eqn:E1; [now apply IH|].
  apply orb_false_iff in E1 as [E1 E2]. rewrite str_eqb_nil in E1.
  destruct (str_eqb c DOTDOT) eqn:E3; cbn [negb orb].
  - destruct n as [|n]; [congruence|]. cbn [Nat.eqb andb orb].
    destruct acc as [|a acc]; cbn [is_empty negb andb].
    + now apply IH.
    + assert (Hl : str_eqb (last (a :: acc) []) DOTDOT = false).
      { assert (Hp : proper (last (a :: acc) []) = true)
          by (apply Hfp, forallb_last; [discriminate | exact Hacc]).
        unfold proper in Hp.
        destruct (str_eqb (last (a :: acc) []) DOTDOT); [|reflexivity].
        cbn [negb] in Hp. now rewrite andb_false_r in Hp. }
      rewrite Hl. apply IH; [exact Hs|]. now apply forallb_removelast.
  - apply IH; [exact Hs|]. rewrite forallb_app, Hacc. simpl.
    rewrite andb_true_r. apply Hpf; [|exact Hc].
    unfold proper. now rewrite E1, E2, E3.
Qed.

Lemma dirname_head (c : str) :
  dirname c = true -> exists x rest, c = x :: rest /\ (x =? SLASH) = false.
Proof.
  unfold dirname, proper, slash_free. destruct c as [|x rest]; [discriminate|].
  simpl. intros H. exists x, rest. split; [reflexivity|].
  destruct (x =? SLASH); [|reflexivity].
  cbn [negb andb] in H. now rewrite andb_false_r in H.
Qed.

Lemma dirname_slash_free (comps : list str) :
  forallb dirname comps = true ->
  forallb (fun p => forallb (fun x => negb (x =? SLASH)) p) comps = true.
Proof.
  induction comps as [|c comps IH]; [reflexivity|]. simpl. intros H.
  apply andb_true_iff in H as [Hc H]. rewrite (IH H), andb_true_r.
  unfold dirname in Hc. now apply andb_true_iff in Hc as [_ Hc].
Qed.

Lemma dirname_proper (comps : list str) :
  forallb dirname comps = true -> forallb proper comps = true.
Proof.
  induction comps as [|c comps IH]; [reflexivity|]. simpl. intros H.
  apply andb_true_iff in H as [Hc H]. rewrite (IH H), andb_true_r.
  unfold dirname in Hc. now apply andb_true_iff in Hc as [Hc _].
Qed.

Lemma join_head (comps : list str) :
  comps <> [] -> forallb dirname comps = true ->
  exists x rest, join [SLASH] comps = x :: rest /\ (x =? SLASH) = false.
Proof.
  destruct comps as [|c comps]; [congruence|]. intros _ H. simpl in H.
  apply andb_true_iff in H as [Hc _].
  destruct (dirname_head c Hc) as [x [rest [-> Hx]]].
  destruct comps; simpl; now eexists _, _.
Qed.

(** An absolute path of directory names is its own normal form. *)
Lemma normpath_absolute (comps : list str) :
  comps <> [] -> forallb dirname comps = true ->
  normpath (absolute comps) = absolute comps.
Proof.
  intros Hne Hd. unfold normpath, absolute. cbn [is_empty].
  destruct (join_head comps Hne Hd) as [x [rest [Ej Hx]]].
  assert (Hs : split_char SLASH (SLASH :: join [SLASH] comps) = [] :: comps).
  { rewrite split_char_cons, N.eqb_refl.
    now rewrite (split_char_join SLASH comps Hne (dirname_slash_free comps Hd)). }
  rewrite Hs. rewrite Ej. cbn [startswith]. rewrite N.eqb_refl, Hx.
  cbn [andb negb norm_comps str_eqb orb repeat app].
  rewrite (norm_comps_proper 1 comps [] (dirname_proper comps Hd)).
  cbn [app]. now rewrite <- Ej.
Qed.

Lemma join_last (comps : list str) :
  comps <> [] -> forallb dirname comps = true ->
  exists pre x, join [SLASH] comps = pre ++ [x] /\ (x =? SLASH) = false.
Proof.
  induction comps as [|c comps IH]; [congruence|]. intros _ H. simpl in H.
  apply andb_true_iff in H as [Hc H].
  destruct comps as [|d comps].
  - unfold dirname, slash_free in Hc. apply andb_true_iff in Hc as [Hp Hs].
    assert (Hne : c <> []) by (intros ->; discriminate Hp).
    destruct (exists_last Hne) as [c' [x ->]]. exists c', x.
    split; [reflexivity|]. rewrite forallb_app in Hs.
    apply andb_true_iff in Hs as [_ Hs]. simpl in Hs.
    now destruct (x =? SLASH).
  - destruct IH as [pre [x [E Hx]]]; [discriminate | exact H |].
    exists (c ++ [SLASH] ++ pre), x. split; [|exact Hx].
    change (join [SLASH] (c :: d :: comps))
      with (c ++ [SLASH] ++ join [SLASH] (d :: comps)).
    rewrite E. now rewrite <- !app_assoc.
Qed.

Lemma startswith_app (a b : str) : startswith (a ++ b) a = true.
Proof. apply startswith_iff. now exists b. Qed.

(** Joining a relative path of directory names onto an absolute one. *)
Lemma resolve_below (root_comps comps : list str) :
  root_comps <> [] -> forallb dirname root_comps = true ->
  comps <> [] -> forallb dirname comps = true ->
  normpath (path_join (absolute root_comps) (join [SLASH] comps))
  = absolute root_comps ++ SLASH :: join [SLASH] comps.
Proof.
  intros Hr Hrd Hc Hcd. unfold path_join.
  destruct (join_head comps Hc Hcd) as [x [rest [Ej Hx]]].
  destruct (join_last root_comps Hr Hrd) as [pre [y [El Hy]]].
  assert (E1 : startswith (join [SLASH] comps) [SLASH] = false)
    by (rewrite Ej; cbn [startswith]; now rewrite Hx).
  assert (E2 : endswith_char (absolute root_comps) SLASH = false).
  { unfold endswith_char, absolute. rewrite El.
    change (SLASH :: pre ++ [y]) with ((SLASH :: pre) ++ [y]).
    now rewrite rev_app_distr. }
  rewrite E1, E2. cbn [is_empty absolute orb].
  assert (E : absolute root_comps ++ [SLASH] ++ join [SLASH] comps
              = absolute (root_comps ++ comps)).
  { unfold absolute. now rewrite (join_app [SLASH] root_comps comps Hr Hc). }
  change (absolute root_comps ++ SLASH :: join [SLASH] comps)
    with (absolute root_comps ++ [SLASH] ++ join [SLASH] comps).
  fold (absolute root_comps). rewrite E.
  apply (normpath_absolute (root_comps ++ comps)).
  - now destruct root_comps.
  - now rewrite forallb_app, Hrd, Hcd.
Qed.

Lemma split_char_once_go_cut (c : char) (p q cur : str) :
  forallb (fun x => negb (x =? c)) p = true ->
  split_char_once_go c cur (p ++ c :: q) = [rev cur ++ p; q]
  /\ split_char_once_go c cur p = [rev cur ++ p].
Proof.
  revert cur; induction p as [|x p IH]; intros cur H; simpl.
  - now rewrite N.eqb_refl, app_nil_r.
  - simpl in H. apply andb_true_iff in H as [Hx Hp].
    destruct (x =? c); [discriminate|].
    destruct (IH (x :: cur) Hp) as [-> ->]. simpl.
    now rewrite <- !app_assoc.
Qed.

Lemma unquote_plain (s : str) :
  forallb (fun x => negb (x =? PERCENT)) s = true -> unquote s = s.
Proof.
  intros H. unfold unquote.
  assert (E : existsb (N.eqb PERCENT) s = false).
  { induction s as [|x s IH]; [reflexivity|]. cbn [existsb forallb] in *.
    apply andb_true_iff in H as [Hx Hs]. rewrite (IH Hs), orb_false_r.
    rewrite N.eqb_sym. now destruct (x =? PERCENT). }
  now rewrite E.
Qed.

Lemma forallb_join (f : char -> bool) (sep : str) (parts : list str) :
  forallb f sep = true -> forallb (forallb f) parts = true ->
  forallb f (join sep parts) = true.
Proof.
  intros Hs. induction parts as [|p parts IH]; [reflexivity|]. simpl.
  intros H. apply andb_true_iff in H as [Hp H].
  destruct parts as [|q parts]; [exact Hp|].
  rewrite !forallb_app, Hp, Hs. now apply IH.
Qed.

Lemma segment_parts (segs : list str) :
  forallb segment segs = true ->
  forallb dirname segs = true
  /\ forallb (forallb (fun x => negb (x =? QUESTION))) segs = true
  /\ forallb (forallb (fun x => negb (x =? PERCENT))) segs = true.
Proof.
  induction segs as [|c segs IH]; [easy|]. simpl. intros H.
  apply andb_true_iff in H as [Hc H]. destruct (IH H) as [-> [-> ->]].
  rewrite !andb_true_r. unfold segment in Hc.
  apply andb_true_iff in Hc as [Hp Hc]. unfold dirname, slash_free. rewrite Hp.
  clear IH H Hp. induction c as [|x c IHc]; [easy|]. simpl in *.
  apply andb_true_iff in Hc as [Hx Hc]. destruct (IHc Hc) as [-> [-> ->]].
  destruct (x =? SLASH), (x =? QUESTION), (x =? PERCENT); easy.
Qed.

(** * More on path resolution *)

Lemma safe_path_query (root p q : str) :
  forallb (fun x => negb (x =? QUESTION)) p = true ->
  Threaded.safe_path root (p ++ QUESTION :: q) = Threaded.safe_path root p.
Proof.
  intros H. unfold Threaded.safe_path, Threaded.raw_path, split_char_once.
  destruct (split_char_once_go_cut QUESTION p q [] H) as [-> ->].
  reflexivity.
Qed.

(** X1.  The query component plays no part in the resolution: the
    multithreaded resolver gives the same answer with and without it, and so
    does the single-threaded file name unless the path is exactly "/". *)
Theorem query_is_ignored (root p q : str) :
  forallb (fun x => negb (x =? QUESTION)) p = true ->
  Threaded.safe_path root (p ++ QUESTION :: q) = Threaded.safe_path root p
  /\ (str_eqb p (lit "/") = false ->
      Single.request_filepath (p ++ QUESTION :: q) = Single.request_filepath p).
Proof.
  intros H. split.
  - now apply safe_path_query.
  - intros Hp. unfold Single.request_filepath. rewrite Hp.
    assert (Hq : str_eqb (p ++ QUESTION :: q) (lit "/") = false).
    { destruct p as [|x [|y p]]; try reflexivity.
      - simpl in *. destruct (x =? 47); [discriminate Hp | reflexivity].
      - simpl. now rewrite andb_false_r. }
    rewrite Hq. clear Hp Hq.
    induction p as [|x p IH]; cbn [lstrip app].
    + vm_compute. reflexivity.
    + cbn [forallb] in H. apply andb_true_iff in H as [Hx Hp].
      destruct (x =? SLASH) eqn:E; [now apply IH|].
      rewrite !split_char_cons.
      destruct (x =? QUESTION); [discriminate|].
      rewrite split_char_app, (split_char_free QUESTION p Hp). reflexivity.
Qed.

(** X2.  An ordinary request path, a slash followed by segments joined by
    slashes (each segment proper and free of [/], [?] and [%]), resolves to
    the root followed by that path, when the root is an absolute path of
    directory names. *)
Theorem plain_path_resolves_below_root (root_comps segs : list str) :
  root_comps <> [] -> forallb dirname root_comps = true ->
  segs <> [] -> forallb segment segs = true ->
  Threaded.safe_path (absolute root_comps) (absolute segs)
  = Some (absolute root_comps ++ absolute segs).
Proof.
  intros Hr Hrd Hs Hseg.
  destruct (segment_parts segs Hseg) as [Hd [Hq Hp]].
  assert (Hq' : forallb (fun x => negb (x =? QUESTION)) (absolute segs) = true).
  { unfold absolute. cbn [forallb]. now rewrite forallb_join. }
  assert (Hp' : forallb (fun x => negb (x =? PERCENT)) (absolute segs) = true).
  { unfold absolute. cbn [forallb]. now rewrite forallb_join. }
  destruct (join_head segs Hs Hd) as [x [rest [Ej Hx]]].
  assert (Hraw : Threaded.raw_path (absolute segs) = join [SLASH] segs).
  { unfold Threaded.raw_path, split_char_once.
    destruct (split_char_once_go_cut QUESTION (absolute segs) [] [] Hq') as [_ ->].
    cbn [rev app hd]. rewrite (unquote_plain _ Hp').
    unfold absolute. cbn [lstrip]. rewrite N.eqb_refl, Ej. cbn [lstrip].
    now rewrite Hx. }
  unfold Threaded.safe_path. rewrite Hraw.
  rewrite (resolve_below root_comps segs Hr Hrd Hs Hd).
  fold (absolute segs). now rewrite startswith_app.
Qed.

(** X2: a concrete case: /srv/www and /docs/a.html. *)
Lemma plain_path_witness :
  Threaded.safe_path (absolute [lit "srv"; lit "www"])
                     (absolute [lit "docs"; lit "a.html"])
  = Some (absolute [lit "srv"; lit "www"] ++ absolute [lit "docs"; lit "a.html"]).
Proof.
  apply plain_path_resolves_below_root;
    (discriminate || (vm_compute; reflexivity)).
Defined.

Lemma forallb_repeat (f : char -> bool) (c : char) (n : nat) :
  f c = true -> forallb f (repeat c n) = true.
Proof.
  intros H. induction n as [|n IH]; [reflexivity|].
  cbn [repeat forallb]. now rewrite H, IH.
Qed.

Lemma lstrip_repeat (c : char) (n : nat) : lstrip c (repeat c n) = [].
Proof. induction n as [|n IH]; simpl; [|rewrite N.eqb_refl]; easy. Qed.

(** X3.  A request path that holds nothing but slashes, with or without a
    query after them, resolves to webservertesting.html directly below the
    root. *)
Theorem bare_path_resolves_to_default_page (root_comps : list str) (n : nat) (q : str) :
  root_comps <> [] -> forallb dirname root_comps = true ->
  Threaded.safe_path (absolute root_comps) (repeat SLASH n)
  = Some (absolute root_comps ++ lit "/webservertesting.html")
  /\ Threaded.safe_path (absolute root_comps) (repeat SLASH n ++ QUESTION :: q)
     = Some (absolute root_comps ++ lit "/webservertesting.html").
Proof.
  intros Hr Hrd.
  assert (Hq : forallb (fun x => negb (x =? QUESTION)) (repeat SLASH n) = true)
    by now apply forallb_repeat.
  assert (Hp : forallb (fun x => negb (x =? PERCENT)) (repeat SLASH n) = true)
    by now apply forallb_repeat.
  assert (H : Threaded.safe_path (absolute root_comps) (repeat SLASH n)
              = Some (absolute root_comps ++ lit "/webservertesting.html")).
  { assert (Hraw : Threaded.raw_path (repeat SLASH n)
                   = join [SLASH] [lit "webservertesting.html"]).
    { unfold Threaded.raw_path, split_char_once.
      destruct (split_char_once_go_cut QUESTION (repeat SLASH n) [] [] Hq) as [_ ->].
      cbn [rev app hd]. now rewrite (unquote_plain _ Hp), lstrip_repeat. }
    unfold Threaded.safe_path. rewrite Hraw.
    rewrite (resolve_below root_comps [lit "webservertesting.html"] Hr Hrd)
      by (discriminate || (vm_compute; reflexivity)).
    change (SLASH :: join [SLASH] [lit "webservertesting.html"])
      with (lit "/webservertesting.html").
    now rewrite startswith_app. }
  split; [exact H|].
  now rewrite (safe_path_query (absolute root_comps) (repeat SLASH n) q Hq).
Qed.

(** X3: a concrete case: the root /srv/www and the paths "/" and "/?lang=en". *)
Lemma bare_path_witness :
  Threaded.safe_path (absolute [lit "srv"; lit "www"]) (repeat SLASH 1)
  = Some (absolute [lit "srv"; lit "www"] ++ lit "/webservertesting.html")
  /\ Threaded.safe_path (absolute [lit "srv"; lit "www"])
                        (repeat SLASH 1 ++ QUESTION :: lit "lang=en")
     = Some (absolute [lit "srv"; lit "www"] ++ lit "/webservertesting.html").
Proof.
  apply (bare_path_resolves_to_default_page [lit "srv"; lit "www"] 1 (lit "lang=en"));
    (discriminate || (vm_compute; reflexivity)).
Defined.

(** A concrete case of X1: /index.html?v=2 for both servers. *)
Lemma query_witness :
  Threaded.safe_path WEB_ROOT (lit "/index.html" ++ QUESTION :: lit "v=2")
  = Threaded.safe_path WEB_ROOT (lit "/index.html")
  /\ (str_eqb (lit "/index.html") (lit "/") = false ->
      Single.request_filepath (lit "/index.html" ++ QUESTION :: lit "v=2")
      = Single.request_filepath (lit "/index.html")).
Proof.
  apply (query_is_ignored WEB_ROOT (lit "/index.html") (lit "v=2")).
  vm_compute. reflexivity.
Defined.

Lemma split_char_repeat (c : char) (n : nat) (s : str) :
  split_char c (repeat c n ++ s) = repeat [] n ++ split_char c s.
Proof.
  induction n as [|n IH]; [reflexivity|]. cbn [repeat app].
  now rewrite split_char_cons, N.eqb_refl, IH.
Qed.

Lemma path_join_absolute (a b : str) :
  startswith a [SLASH] = true -> startswith (path_join a b) [SLASH] = true.
Proof.
  intros Ha. unfold path_join.
  destruct (startswith b [SLASH]) eqn:Eb; [exact Eb|].
  destruct a as [|x a]; [discriminate Ha|]. cbn [is_empty orb].
  now destruct (endswith_char (x :: a) SLASH).
Qed.

(** The normal form of a path that starts with a slash: one or two slashes,
    then directory names joined by slashes. *)
Lemma normpath_shape (path : str) :
  startswith path [SLASH] = true ->
  exists n comps,
    n <> 0%nat /\ forallb dirname comps = true
    /\ normpath path = repeat SLASH n ++ join [SLASH] comps.
Proof.
  intros Hp. unfold normpath. rewrite Hp.
  destruct path as [|x path]; [discriminate Hp|]. cbn [is_empty].
  set (n := if startswith (x :: path) [SLASH; SLASH]
               && negb (startswith (x :: path) [SLASH; SLASH; SLASH])
            then 2%nat else 1%nat).
  assert (Hn : n <> 0%nat) by (subst n; now destruct (_ && _)).
  exists n, (norm_comps n [] (split_char SLASH (x :: path))).
  split; [exact Hn|]. split.
  - apply norm_comps_keeps; try easy.
    + intros c Hc. unfold dirname in Hc. now apply andb_true_iff in Hc as [Hc _].
    + intros c Hc Hs. unfold dirname, slash_free. now rewrite Hc, Hs.
    + apply split_char_slash_free.
  - cbv zeta. destruct n as [|n]; [congruence | reflexivity].
Qed.

Lemma list_prefix_app (a b : list str) : list_prefix a (a ++ b) = true.
Proof.
  induction a as [|x a IH]; [reflexivity|]. simpl. now rewrite str_eqb_refl, IH.
Qed.

Lemma inside_root_below (root x : str) :
  inside_root root root = true /\ inside_root root (root ++ SLASH :: x) = true.
Proof.
  unfold inside_root, components. split.
  - rewrite <- (app_nil_r (filter _ (split_char SLASH root))) at 2.
    apply list_prefix_app.
  - rewrite split_char_app, filter_app. apply list_prefix_app.
Qed.

(** X4.  What [safe_path] returns, for a root that starts with a slash: a
    path none of whose components is [.] or [..], made of the characters of
    the root followed by [rest]; and when [rest] is empty or starts with a
    slash, the components of the root are the first components of the
    path. *)
Theorem resolved_path_shape (root url_path safe : str) :
  startswith root [SLASH] = true ->
  Threaded.safe_path root url_path = Some safe ->
  forallb (fun c => negb (str_eqb c DOT) && negb (str_eqb c DOTDOT))
          (split_char SLASH safe) = true
  /\ exists rest,
      safe = root ++ rest
      /\ (rest = [] \/ startswith rest [SLASH] = true ->
          inside_root root safe = true).
Proof.
  intros Hroot Hsafe. split.
  - unfold Threaded.safe_path in Hsafe.
    destruct (negb (startswith _ root)); [discriminate|].
    injection Hsafe as <-.
    destruct (normpath_shape _ (path_join_absolute root
                (Threaded.raw_path url_path) Hroot)) as [n [comps [Hn [Hd ->]]]].
    rewrite split_char_repeat, forallb_app.
    apply andb_true_iff. split.
    { apply forallb_forall. intros c Hc. apply repeat_spec in Hc. now subst c. }
    destruct comps as [|c comps]; [reflexivity|].
    rewrite split_char_join; [|discriminate | now apply dirname_slash_free].
    clear - Hd. induction (c :: comps) as [|d l IH]; [reflexivity|].
    cbn [forallb] in *. apply andb_true_iff in Hd as [Hd Hl].
    rewrite (IH Hl), andb_true_r. unfold dirname, proper in Hd.
    destruct (str_eqb d DOT), (str_eqb d DOTDOT);
      cbn [negb andb] in *; try reflexivity;
      rewrite ?andb_false_r in Hd; discriminate Hd.
  - unfold Threaded.safe_path in Hsafe.
    destruct (startswith _ root) eqn:E; [|discriminate].
    injection Hsafe as <-. apply startswith_iff in E as [rest E].
    rewrite E. exists rest.
    split; [reflexivity|]. intros [-> | Hs].
    + rewrite app_nil_r. apply (inside_root_below root []).
    + destruct rest as [|x rest]; [discriminate Hs|]. cbn [startswith] in Hs.
      apply andb_true_iff in Hs as [Hx _]. apply N.eqb_eq in Hx; subst x.
      apply inside_root_below.
Qed.

(** A concrete case of X4: /a/../index.html below /srv/www. *)
Lemma resolved_path_witness :
  forallb (fun c => negb (str_eqb c DOT) && negb (str_eqb c DOTDOT))
          (split_char SLASH (lit "/srv/www/index.html")) = true
  /\ exists rest,
      lit "/srv/www/index.html" = WEB_ROOT ++ rest
      /\ (rest = [] \/ startswith rest [SLASH] = true ->
          inside_root WEB_ROOT (lit "/srv/www/index.html") = true).
Proof.
  apply (resolved_path_shape WEB_ROOT (lit "/a/../index.html"));
    vm_compute; reflexivity.
Defined.

(** * More on the multithreaded handler *)

(** X5.  A GET request whose path the resolver rejects, or resolves to
    something that is not a regular file, gets the 404 response, the same
    bytes in both cases; the file is not read. *)
Theorem rejected_and_missing_get_404 (root : str) (w : World)
        (data path version : str) :
  healthy w ->
  request_text 4096 w = Some data ->
  split_ws (request_line data) = [lit "GET"; path; version] ->
  (Threaded.safe_path root path = None
   \/ exists filepath, Threaded.safe_path root path = Some filepath
                       /\ isfile w filepath = false) ->
  Threaded.handle_client root w fresh_sock
  = (Ok tt, shut (after fresh_sock (chunks (error_response w 404 "Not Found" [])))).
Proof.
  intros Hw Hr Ht Hp. apply handle_client_returned.
  rewrite (attempt_request root w data fresh_sock eq_refl Hr).
  rewrite (respond_wellformed root w data _ path version Ht).
  rewrite str_eqb_refl. cbn [negb].
  assert (H404 : Threaded.send_error w 404 (lit "Not Found") None None fresh_sock
                 = (Ok tt, after fresh_sock
                             (chunks (error_response w 404 "Not Found" []))))
    by (apply (send_error_run w Hw); [reflexivity | vm_compute; reflexivity]).
  destruct Hp as [-> | [filepath [-> Hf]]]; [exact H404|].
  rewrite Hf. cbn [negb]. now rewrite orb_true_r.
Qed.

(** Concrete cases of X5: a path that leaves the root, and a missing file. *)
Lemma rejected_and_missing_witness :
  let w := site (request_bytes "GET /../../etc/passwd HTTP/1.1") in
  let w' := site (request_bytes "GET /missing.html HTTP/1.1") in
  Threaded.handle_client WEB_ROOT w fresh_sock
  = (Ok tt, shut (after fresh_sock (chunks (error_response w 404 "Not Found" []))))
  /\ Threaded.handle_client WEB_ROOT w' fresh_sock
     = (Ok tt, shut (after fresh_sock (chunks (error_response w' 404 "Not Found" [])))).
Proof.
  split.
  - apply (rejected_and_missing_get_404 WEB_ROOT _
             (lit "GET /../../etc/passwd HTTP/1.1" ++ CRLF ++ CRLF)
             (lit "/../../etc/passwd") (lit "HTTP/1.1"));
      [intros k; reflexivity | vm_compute; reflexivity | vm_compute; reflexivity
      | left; vm_compute; reflexivity].
  - apply (rejected_and_missing_get_404 WEB_ROOT _
             (lit "GET /missing.html HTTP/1.1" ++ CRLF ++ CRLF)
             (lit "/missing.html") (lit "HTTP/1.1"));
      [intros k; reflexivity | vm_compute; reflexivity | vm_compute; reflexivity
      | right; exists (lit "/srv/www/missing.html"); split; vm_compute; reflexivity].
Defined.

Lemma respond_request_line (root : str) (w : World) (data data' : str) :
  data <> [] -> data' <> [] ->
  request_line data = request_line data' ->
  Threaded.respond root w data = Threaded.respond root w data'.
Proof.
  intros Hd Hd' Hl. unfold Threaded.respond, request_line in *.
  destruct data as [|c data]; [contradiction|].
  destruct data' as [|c' data']; [contradiction|]. cbn [is_empty].
  destruct (split_crlf (c :: data)) as [|l t] eqn:E;
    [now apply split_crlf_nonempty in E|].
  destruct (split_crlf (c' :: data')) as [|l' t'] eqn:E';
    [now apply split_crlf_nonempty in E'|].
  cbn [hd] in Hl. now subst l'.
Qed.

(** X6.  Only the request line counts: two requests whose texts are not
    empty and agree up to the first CR LF are handled alike, whatever
    follows (header lines, a body), on any socket and any transport. *)
Theorem only_the_request_line_counts (root : str) (w : World) (b b' : bytes)
        (data data' : str) (s : Sock) :
  utf8_decode Ignore (firstn 4096 b) = Some data ->
  utf8_decode Ignore (firstn 4096 b') = Some data' ->
  data <> [] -> data' <> [] ->
  request_line data = request_line data' ->
  Threaded.handle_client root (with_incoming w (Ok b)) s
  = Threaded.handle_client root (with_incoming w (Ok b')) s.
Proof.
  intros Hb Hb' Hd Hd' Hl.
  unfold Threaded.handle_client, try_finally, try_except.
  assert (E : Threaded.attempt root (with_incoming w (Ok b)) s
              = Threaded.attempt root (with_incoming w (Ok b')) s).
  { unfold Threaded.attempt, bind, recv. cbn [incoming with_incoming].
    destruct (closed s); [reflexivity|]. rewrite Hb, Hb'. cbn [of_option ret].
    change (Threaded.respond root (with_incoming w (Ok b)) data s)
      with (Threaded.respond root w data s).
    change (Threaded.respond root (with_incoming w (Ok b')) data' s)
      with (Threaded.respond root w data' s).
    now rewrite (respond_request_line root w data data' Hd Hd' Hl). }
  rewrite E. reflexivity.
Qed.

(** A concrete case of X6: the same request line with and without a
    User-Agent header. *)
Lemma request_line_witness :
  Threaded.handle_client WEB_ROOT
    (with_incoming (site []) (Ok (request_bytes "GET /index.html HTTP/1.1")))
    fresh_sock
  = Threaded.handle_client WEB_ROOT
      (with_incoming (site [])
         (Ok (list_byte_of_string "GET /index.html HTTP/1.1" ++ [x0d; x0a]
              ++ list_byte_of_string "User-Agent: curl/8.0" ++ [x0d; x0a; x0d; x0a])))
      fresh_sock.
Proof.
  apply (only_the_request_line_counts WEB_ROOT (site []) _ _
           (lit "GET /index.html HTTP/1.1" ++ CRLF ++ CRLF)
           (lit "GET /index.html HTTP/1.1" ++ CRLF
            ++ lit "User-Agent: curl/8.0" ++ CRLF ++ CRLF));
    (discriminate || (vm_compute; reflexivity)).
Defined.

(** X7.  The receive buffer bounds what is read: the multithreaded handler
    looks at the first 4096 bytes only, the single-threaded loop at the first
    2048. *)
Theorem only_the_buffer_is_read (root : str) (w : World) (b : bytes) (s : Sock) :
  Threaded.handle_client root (with_incoming w (Ok b)) s
  = Threaded.handle_client root (with_incoming w (Ok (firstn 4096 b))) s
  /\ Single.serve_connection (with_incoming w (Ok b)) s
     = Single.serve_connection (with_incoming w (Ok (firstn 2048 b))) s.
Proof.
  split.
  - unfold Threaded.handle_client, try_finally, try_except.
    assert (E : Threaded.attempt root (with_incoming w (Ok b)) s
                = Threaded.attempt root (with_incoming w (Ok (firstn 4096 b))) s).
    { unfold Threaded.attempt, bind, recv. cbn [incoming with_incoming].
      rewrite firstn_firstn, Nat.min_id. reflexivity. }
    rewrite E. reflexivity.
  - unfold Single.serve_connection, try_finally, try_except.
    assert (E : Single.request (with_incoming w (Ok b)) s
                = Single.request (with_incoming w (Ok (firstn 2048 b))) s).
    { unfold Single.request, bind, recv. cbn [incoming with_incoming].
      rewrite firstn_firstn, Nat.min_id. reflexivity. }
    rewrite E. reflexivity.
Qed.

Lemma safe_path_prefix (root url_path filepath : str) :
  Threaded.safe_path root url_path = Some filepath ->
  startswith filepath root = true.
Proof.
  unfold Threaded.safe_path.
  destruct (startswith _ root) eqn:E; [|discriminate].
  intros H. now injection H as <-.
Qed.

(** X8.  The multithreaded handler consults the file system and the MIME
    table only at paths that start with the characters of [WEB_ROOT]: two
    worlds that agree there are handled alike, on any socket and any
    transport. *)
Theorem files_are_consulted_under_the_prefix_only (root : str) (w : World)
        (g : str -> option bytes) (f : str -> bool) (r : str -> result bytes)
        (s : Sock) :
  (forall p, startswith p root = true ->
             g p = guess_type w p /\ f p = isfile w p /\ r p = read_file w p) ->
  Threaded.handle_client root (with_files w g f r) s
  = Threaded.handle_client root w s.
Proof.
  intros Hagree.
  assert (Hrespond : forall data s0,
             Threaded.respond root (with_files w g f r) data s0
             = Threaded.respond root w data s0).
  { intros data s0. destruct data as [|c data]; [reflexivity|].
    set (d := c :: data). assert (Hd : d <> []) by discriminate.
    destruct (split_ws (request_line d)) as [|m [|p [|v [|x l]]]] eqn:Ht;
      try (rewrite !(respond_malformed root _ d Hd) by (rewrite Ht; discriminate);
           reflexivity).
    rewrite !(respond_wellformed root _ d m p v Ht).
    destruct (negb (str_eqb m (lit "GET"))); [reflexivity|].
    destruct (Threaded.safe_path root p) as [filepath|] eqn:Es; [|reflexivity].
    destruct (Hagree filepath (safe_path_prefix root p filepath Es))
      as [Hg [Hf Hr]].
    cbn [isfile with_files]. rewrite Hf.
    destruct (is_empty filepath || negb (isfile w filepath)); [reflexivity|].
    unfold Threaded.serve_file, bind. cbn [guess_type read_file with_files].
    rewrite Hg, Hr. reflexivity. }
  unfold Threaded.handle_client, try_finally, try_except.
  assert (E : Threaded.attempt root (with_files w g f r) s
              = Threaded.attempt root w s).
  { unfold Threaded.attempt, bind. 
    change (recv (with_files w g f r) 4096 s) with (recv w 4096 s).
    destruct (recv w 4096 s) as [[data|e] s0]; [|reflexivity].
    destruct (of_option UnicodeDecodeError (utf8_decode Ignore data) s0)
      as [[txt|e] s1]; [|reflexivity].
    apply Hrespond. }
  rewrite E. reflexivity.
Qed.

(** A concrete case of X8: the site, and the site with every file outside
    /srv/www... removed. *)
Lemma files_prefix_witness :
  let w := site (request_bytes "GET /index.html HTTP/1.1") in
  let below p := startswith p WEB_ROOT in
  Threaded.handle_client WEB_ROOT
    (with_files w (fun p => if below p then guess_type w p else None)
                  (fun p => below p && isfile w p)
                  (fun p => if below p then read_file w p else Raise OSError))
    fresh_sock
  = Threaded.handle_client WEB_ROOT w fresh_sock.
Proof.
  apply files_are_consulted_under_the_prefix_only.
  intros p Hp. cbv zeta. rewrite Hp. repeat split; reflexivity.
Defined.

(** X9.  The single-threaded server never opens an absolute path, and never
    one with a [?] in it: the file name it derives from a request path does
    not start with a slash. *)
Theorem single_filepath_is_relative (path : str) :
  startswith (Single.request_filepath path) [SLASH] = false
  /\ ~ In QUESTION (Single.request_filepath path).
Proof.
  split; [|now apply (before_first QUESTION
                        (lstrip SLASH (if str_eqb path (lit "/")
                                       then lit "/webservertesting.html" else path)));
           right].
  unfold Single.request_filepath.
  destruct (lstrip_spec SLASH (if str_eqb path (lit "/")
                               then lit "/webservertesting.html" else path))
    as [n [_ H]].
  destruct (lstrip SLASH _) as [|x t]; [reflexivity|].
  cbn [startswith] in H. rewrite andb_true_r in H.
  rewrite split_char_cons.
  destruct (x =? QUESTION); [reflexivity|].
  destruct (split_char QUESTION t); cbn [hd startswith]; now rewrite H.
Qed.

(** * The UTF-8 codec *)

From Stdlib Require Import ZArith.
Local Open Scope N_scope.

Lemma is_cont_iff (b : N) : is_cont b = true <-> 128 <= b /\ b <= 191.
Proof.
  unfold is_cont. rewrite andb_true_iff, !N.leb_le. reflexivity.
Qed.

Section EncodeDecoded.

Local Ltac Zify.zify_post_hook ::= Z.to_euclidean_division_equations.

Ltac encode_char_cases :=
  unfold utf8_encode_char;
  repeat match goal with
         | |- context [?a <? ?b] => destruct (N.ltb_spec a b); try lia
         | |- context [?a <=? ?b] => destruct (N.leb_spec a b); try lia
         end;
  cbn [andb]; repeat f_equal; lia.

Lemma encode_two (b0 b1 : N) :
  194 <= b0 -> b0 < 224 -> 128 <= b1 /\ b1 <= 191 ->
  utf8_encode_char ((b0 - 192) * 64 + (b1 - 128)) = Some [b0; b1].
Proof. intros H0 H0' [H1 H1']. encode_char_cases. Qed.

Lemma encode_three (b0 b1 b2 : N) :
  224 <= b0 -> b0 < 240 ->
  128 <= b1 /\ b1 <= 191 -> 128 <= b2 /\ b2 <= 191 ->
  (b1 < 160 -> b0 <> 224) -> (160 <= b1 -> b0 <> 237) ->
  utf8_encode_char ((b0 - 224) * 4096 + (b1 - 128) * 64 + (b2 - 128))
  = Some [b0; b1; b2].
Proof. intros H0 H0' [H1 H1'] [H2 H2'] Hlow Hsur. encode_char_cases. Qed.

Lemma encode_four (b0 b1 b2 b3 : N) :
  240 <= b0 -> b0 < 245 ->
  128 <= b1 /\ b1 <= 191 -> 128 <= b2 /\ b2 <= 191 -> 128 <= b3 /\ b3 <= 191 ->
  (b1 < 144 -> b0 <> 240) -> (144 <= b1 -> b0 <> 244) ->
  utf8_encode_char ((b0 - 240) * 262144 + (b1 - 128) * 4096
                    + (b2 - 128) * 64 + (b3 - 128))
  = Some [b0; b1; b2; b3].
Proof.
  intros H0 H0' [H1 H1'] [H2 H2'] [H3 H3'] Hlow Hhigh. encode_char_cases.
Qed.

End EncodeDecoded.

(** A scalar value the decoder accepts encodes to the bytes it was read
    from; it is the first byte itself, or not an ASCII character. *)
Lemma utf8_step_scalar (b0 : N) (rest : list N) (cp : N) (used : nat) :
  utf8_step b0 rest = Scalar cp used ->
  exists pre,
    utf8_encode_char cp = Some (b0 :: pre)
    /\ rest = pre ++ skipn (used - 1) rest
    /\ (cp = b0 \/ 128 <= cp).
Proof.
  unfold utf8_step.
  destruct (N.ltb_spec b0 128) as [H128|H128].
  { intros H. injection H as <- <-. exists []. repeat split; [|now left].
    unfold utf8_encode_char. now rewrite (proj2 (N.ltb_lt _ _) H128). }
  destruct (N.ltb_spec b0 194) as [H194|H194]; [discriminate|].
  destruct (N.ltb_spec b0 224) as [H224|H224].
  { destruct rest as [|b1 rest]; [discriminate|].
    destruct (is_cont b1) eqn:C1; [|discriminate].
    apply is_cont_iff in C1. intros H. injection H as <- <-.
    exists [b1]. split; [now apply encode_two|]. split; [reflexivity|].
    right. lia. }
  destruct (N.ltb_spec b0 240) as [H240|H240].
  { destruct rest as [|b1 [|b2 rest]]; try discriminate;
      destruct (is_cont b1) eqn:C1; cbn [negb orb]; try discriminate;
      destruct (N.ltb_spec b1 160) as [L|L];
      destruct (N.eqb_spec b0 224) as [E|E]; try discriminate;
      destruct (N.eqb_spec b0 237) as [E'|E']; try discriminate;
      destruct (is_cont b2) eqn:C2; try discriminate;
      apply is_cont_iff in C1; apply is_cont_iff in C2;
      intros H; injection H as <- <-; exists [b1; b2];
      (split; [apply encode_three; (assumption || lia)
              | split; [reflexivity | right; lia]]). }
  destruct (N.ltb_spec b0 245) as [H245|H245]; [|discriminate].
  destruct rest as [|b1 [|b2 [|b3 rest]]]; try discriminate;
    destruct (is_cont b1) eqn:C1; cbn [negb orb]; try discriminate;
    destruct (N.ltb_spec b1 144) as [L|L];
    destruct (N.eqb_spec b0 240) as [E|E]; try discriminate;
    destruct (N.eqb_spec b0 244) as [E'|E']; try discriminate;
    destruct (is_cont b2) eqn:C2; cbn [negb]; try discriminate;
    destruct (is_cont b3) eqn:C3; try discriminate;
    apply is_cont_iff in C1; apply is_cont_iff in C2; apply is_cont_iff in C3;
    intros H; injection H as <- <-; exists [b1; b2; b3];
    (split; [apply encode_four; (assumption || lia)
            | split; [reflexivity | right; lia]]).
Qed.

Lemma byte_of_to_N (b : byte) : byte_of_N (Byte.to_N b) = b.
Proof. unfold byte_of_N. now rewrite Byte.of_to_N. Qed.

Lemma bytes_of_to_N (b : bytes) : map byte_of_N (map Byte.to_N b) = b.
Proof.
  rewrite map_map. rewrite <- (map_id b) at 2.
  apply map_ext. exact byte_of_to_N.
Qed.

Lemma in_skipn (x : byte) (k : nat) (l : bytes) : In x (skipn k l) -> In x l.
Proof.
  intros H. rewrite <- (firstn_skipn k l). apply in_or_app. now right.
Qed.

(** Strict decoding is undone by encoding; and a CR in the text comes from
    a CR byte. *)
Lemma utf8_decode_go_encode (fuel : nat) (b : bytes) (s : str) :
  (List.length b <= fuel)%nat ->
  utf8_decode_go fuel Strict (map Byte.to_N b) = Some s ->
  utf8_encode s = Some b /\ (In CR s -> In x0d b).
Proof.
  revert b s; induction fuel as [|fuel IH]; intros [|x b] s Hlen H;
    cbn [map utf8_decode_go] in H; try (injection H as <-; now split).
  destruct (utf8_step (Byte.to_N x) (map Byte.to_N b)) as [cp used|used] eqn:Es;
      [|discriminate].
  destruct (utf8_step_scalar _ _ _ _ Es) as [pre [Henc [Hrest Hcp]]].
  rewrite skipn_map in H, Hrest.
  destruct (utf8_decode_go fuel Strict (map Byte.to_N (skipn (used - 1) b)))
    as [s'|] eqn:Ed; [|discriminate].
  cbn [option_map] in H. injection H as <-.
  destruct (IH (skipn (used - 1) b) s') as [He Hc]; [|exact Ed|].
  { rewrite length_skipn. simpl in Hlen. lia. }
  assert (Hb : map byte_of_N pre ++ skipn (used - 1) b = b).
  { rewrite <- (bytes_of_to_N b) at 2. rewrite Hrest, map_app.
    now rewrite bytes_of_to_N. }
  split.
  + cbn [utf8_encode]. rewrite Henc, He. cbn [map].
    rewrite byte_of_to_N. cbn [app]. now rewrite Hb.
  + intros [Hx | Hin].
    * destruct Hcp as [Hcp | Hcp]; [|unfold CR in Hx; lia].
      left. rewrite <- (byte_of_to_N x), <- Hcp, Hx. reflexivity.
    * right. apply (in_skipn _ (used - 1)). now apply Hc.
Qed.

Lemma translate_newlines_without_cr (s : str) :
  ~ In CR s -> translate_newlines s = s.
Proof.
  induction s as [|x s IH]; [reflexivity|]. intros H. cbn [translate_newlines].
  destruct (N.eqb_spec x CR) as [->|_]; [exfalso; apply H; now left|].
  rewrite IH; [reflexivity|]. intros Hin. apply H. now right.
Qed.

(** X10.  Text that decodes strictly as UTF-8 encodes back to the same bytes:
    the decode and re-encode of a text-mode read changes nothing by itself. *)
Theorem utf8_encode_decode (b : bytes) (s : str) :
  utf8_decode Strict b = Some s -> utf8_encode s = Some b.
Proof.
  intros H. unfold utf8_decode in H.
  now apply (utf8_decode_go_encode (List.length b) b s (Nat.le_refl _)).
Qed.

(** A concrete case of X10: the five bytes of "h", e-acute, the euro sign. *)
Lemma utf8_witness :
  utf8_encode [104; 233; 8364] = Some [x68; xc3; xa9; xe2; x82; xac].
Proof.
  apply (utf8_encode_decode [x68; xc3; xa9; xe2; x82; xac]).
  vm_compute. reflexivity.
Defined.

(** * More on the single-threaded loop *)

Lemma single_get_reply (w : World) (data path version : str) :
  healthy w ->
  request_text 2048 w = Some data ->
  split_ws (first_line data) = [lit "GET"; path; version] ->
  Single.serve_connection w fresh_sock = single_reply w path.
Proof.
  intros Hw Hr Ht.
  assert (Hd : data <> []) by (intros ->; discriminate Ht).
  apply (single_connection_parsed w data (lit "GET") path version Hw Hr Hd).
  rewrite (parse_wellformed _ _ path version Ht). now rewrite str_eqb_refl.
Qed.

(** X11.  A GET request is answered from the file its path names: 200 with
    what [read_content] gives, the 404 response when that raises an IOError,
    and nothing when it raises another exception, which then ends the loop. *)
Theorem single_get (w : World) (data path version : str) :
  healthy w ->
  request_text 2048 w = Some data ->
  split_ws (first_line data) = [lit "GET"; path; version] ->
  Single.serve_connection w fresh_sock = single_reply w path.
Proof.
  intros Hw Hr Ht.
  assert (Hd : data <> []) by (intros ->; discriminate Ht).
  unfold Single.serve_connection, try_finally, try_except.
  rewrite (request_parsed w data fresh_sock eq_refl Hr Hd). unfold bind.
  rewrite (parse_wellformed _ _ path version Ht), str_eqb_refl.
  cbn [ret fst snd]. rewrite (serve_path_run w Hw) by reflexivity.
  unfold single_reply.
  destruct (Single.read_content _ _) as [content|e]; [reflexivity|].
  destruct (is_IOError e); [|reflexivity].
  now rewrite (not_found_run w Hw) by reflexivity.
Qed.

(** A concrete case of X11: a missing file. *)
Lemma single_get_witness :
  let w := site (request_bytes "GET /missing.html HTTP/1.1") in
  Single.serve_connection w fresh_sock = single_reply w (lit "/missing.html").
Proof.
  apply (single_get _ (lit "GET /missing.html HTTP/1.1" ++ CRLF ++ CRLF)
           (lit "/missing.html") (lit "HTTP/1.1"));
    [intros k; reflexivity | vm_compute; reflexivity | vm_compute; reflexivity].
Defined.

(** X12.  When the single-threaded server sends a file as it is on disk: a
    file whose type is not a text type, always; a text file, when it is
    valid UTF-8 and holds no CR byte. *)
Theorem single_file_round_trip (w : World) (data path version : str) (raw : bytes) :
  healthy w ->
  request_text 2048 w = Some data ->
  split_ws (first_line data) = [lit "GET"; path; version] ->
  read_file w (Single.request_filepath path) = Ok raw ->
  startswith (Single.content_type_of w (Single.request_filepath path))
             (lit "text/") = false
  \/ ((exists s, utf8_decode Strict raw = Some s) /\ ~ In x0d raw) ->
  Single.serve_connection w fresh_sock
  = (Ok tt, shut (after fresh_sock
       (chunks (single_ok_response
                  (Single.content_type_of w (Single.request_filepath path))
                  raw)))).
Proof.
  intros Hw Hr Ht Hf Hc.
  rewrite (single_get_reply w data path version Hw Hr Ht). unfold single_reply.
  assert (E : Single.read_content w (Single.request_filepath path) = Ok raw).
  { unfold Single.read_content.
    destruct (startswith _ (lit "text/")) eqn:Et.
    - destruct Hc as [Hc | [[s Hs] Hcr]]; [discriminate Hc|].
      unfold Single.read_text. rewrite Hf, Hs.
      destruct (utf8_decode_go_encode (List.length raw) raw s (Nat.le_refl _) Hs)
        as [He Hin].
      rewrite translate_newlines_without_cr by (intros H; now apply Hcr, Hin).
      now rewrite He.
    - exact Hf. }
  now rewrite E.
Qed.

(** A concrete case of X12: a file whose type is not a text type. *)
Lemma single_round_trip_witness :
  let w := site (request_bytes "GET /../www2/secret.txt HTTP/1.1") in
  Single.serve_connection w fresh_sock
  = (Ok tt, shut (after fresh_sock
       (chunks (single_ok_response
                  (Single.content_type_of w (lit "../www2/secret.txt")) secret)))).
Proof.
  apply (single_file_round_trip _
           (lit "GET /../www2/secret.txt HTTP/1.1" ++ CRLF ++ CRLF)
           (lit "/../www2/secret.txt") (lit "HTTP/1.1") secret);
    [intros k; reflexivity | vm_compute; reflexivity | vm_compute; reflexivity
    | vm_compute; reflexivity | left; vm_compute; reflexivity].
Defined.

(** X13.  A text file that is not valid UTF-8 stops the single-threaded
    server: the UnicodeDecodeError of the read is not an IOError, nothing is
    sent, the socket is closed, and no later connection is accepted. *)
Theorem single_undecodable_text_ends_the_loop (w : World)
        (data path version : str) (raw : bytes) (rest : list World) :
  healthy w ->
  request_text 2048 w = Some data ->
  split_ws (first_line data) = [lit "GET"; path; version] ->
  startswith (Single.content_type_of w (Single.request_filepath path))
             (lit "text/") = true ->
  read_file w (Single.request_filepath path) = Ok raw ->
  utf8_decode Strict raw = None ->
  Single.serve_connection w fresh_sock = (Raise UnicodeDecodeError, shut fresh_sock)
  /\ Single.serve_forever (w :: rest) = ([shut fresh_sock], Some UnicodeDecodeError).
Proof.
  intros Hw Hr Ht Htext Hf Hd.
  assert (E : Single.serve_connection w fresh_sock
              = (Raise UnicodeDecodeError, shut fresh_sock)).
  { rewrite (single_get_reply w data path version Hw Hr Ht). unfold single_reply.
    unfold Single.read_content. rewrite Htext.
    unfold Single.read_text. now rewrite Hf, Hd. }
  split; [exact E|]. cbn [Single.serve_forever]. now rewrite E.
Qed.

(** A concrete case of X13: latin.html holds the single byte E9. *)
Lemma single_undecodable_witness :
  let w := site (request_bytes "GET /latin.html HTTP/1.1") in
  Single.serve_connection w fresh_sock = (Raise UnicodeDecodeError, shut fresh_sock)
  /\ Single.serve_forever [w; site (request_bytes "GET /index.html HTTP/1.1")]
     = ([shut fresh_sock], Some UnicodeDecodeError).
Proof.
  apply (single_undecodable_text_ends_the_loop _
           (lit "GET /latin.html HTTP/1.1" ++ CRLF ++ CRLF)
           (lit "/latin.html") (lit "HTTP/1.1") [xe9]);
    [intros k; reflexivity | vm_compute; reflexivity | vm_compute; reflexivity
    | vm_compute; reflexivity | vm_compute; reflexivity | vm_compute; reflexivity].
Defined.

Lemma serve_connection_closes (w : World) (s : Sock) :
  closed (snd (Single.serve_connection w s)) = true.
Proof.
  unfold Single.serve_connection, try_finally, close.
  now destruct (try_except _ _ _ s) as [r s'].
Qed.

Lemma serve_connection_raises (w : World) (e : exn) (s : Sock) :
  healthy w ->
  Single.serve_connection w fresh_sock = (Raise e, s) ->
  is_IOError e = false.
Proof.
  intros Hw. unfold Single.serve_connection, try_finally, try_except, close.
  destruct (single_request_cases w Hw) as [H | [[e' H] | [ct [c H]]]];
    rewrite H; try discriminate.
  destruct (is_IOError e') eqn:E.
  - now rewrite (not_found_run w Hw) by reflexivity.
  - intros H'. now injection H' as <- _.
Qed.

(** X14.  The accept loop of the single-threaded server handles the
    connections in the order of their arrival and stops at the first one that
    raises: when no connection raises, the sockets it leaves are those of the
    arrivals, one for one and in order, and no exception is reported; when
    the connection after [pre] is the first to raise, the sockets are those
    of [pre], in order, followed by the socket of that connection, the
    exception reported is the one it raised, and the arrivals after it are
    not touched.  Every socket the loop leaves is closed, and when every
    transport works the exception that ends the loop is never an IOError. *)
Theorem serve_forever_invariants :
  (forall arrivals,
      Forall (fun w => fst (Single.serve_connection w fresh_sock) = Ok tt) arrivals ->
      Single.serve_forever arrivals
      = (map (fun w => snd (Single.serve_connection w fresh_sock)) arrivals, None))
  /\ (forall pre w post e,
        Forall (fun w => fst (Single.serve_connection w fresh_sock) = Ok tt) pre ->
        fst (Single.serve_connection w fresh_sock) = Raise e ->
        Single.serve_forever (pre ++ w :: post)
        = (map (fun w => snd (Single.serve_connection w fresh_sock)) pre
             ++ [snd (Single.serve_connection w fresh_sock)],
           Some e))
  /\ (forall arrivals,
        Forall (fun s => closed s = true) (fst (Single.serve_forever arrivals))
        /\ (List.length (fst (Single.serve_forever arrivals)) <= List.length arrivals)%nat
        /\ (snd (Single.serve_forever arrivals) = None ->
            List.length (fst (Single.serve_forever arrivals)) = List.length arrivals)
        /\ (Forall healthy arrivals ->
            forall e, snd (Single.serve_forever arrivals) = Some e ->
                      is_IOError e = false)).
Proof.
  split; [|split].
  - induction arrivals as [|w rest IH]; intros Hok; [reflexivity|].
    inversion Hok as [|? ? Hw Hrest]; subst.
    cbn [Single.serve_forever map].
    destruct (Single.serve_connection w fresh_sock) as [[[]|e] s];
      cbn [fst snd] in *; [|discriminate Hw].
    now rewrite (IH Hrest).
  - induction pre as [|w0 pre IH]; intros w post e Hok He.
    + cbn [app map Single.serve_forever].
      destruct (Single.serve_connection w fresh_sock) as [[[]|e'] s];
        cbn [fst snd] in *; [discriminate He|].
      now injection He as ->.
    + inversion Hok as [|? ? Hw Hrest]; subst.
      cbn [app map Single.serve_forever].
      destruct (Single.serve_connection w0 fresh_sock) as [[[]|e'] s];
        cbn [fst snd] in *; [|discriminate Hw].
      now rewrite (IH w post e Hrest He).
  - induction arrivals as [|w rest [IH1 [IH2 [IH3 IH4]]]].
    + repeat split; try constructor. discriminate.
    + cbn [Single.serve_forever].
      pose proof (serve_connection_closes w fresh_sock) as Hc.
      destruct (Single.serve_connection w fresh_sock) as [[[]|e] s] eqn:E;
        destruct (Single.serve_forever rest) as [ss r]; cbn [fst snd] in *.
      * repeat split.
        -- now constructor.
        -- simpl. lia.
        -- intros H. simpl. now rewrite IH3.
        -- intros Hh e He. inversion Hh; subst. now apply IH4.
      * repeat split.
        -- now repeat constructor.
        -- simpl. lia.
        -- discriminate.
        -- intros Hh e' He. injection He as <-. inversion Hh; subst.
           now apply (serve_connection_raises w e s).
Qed.

(** A concrete case of X14: three arrivals, the second a text file that is
    not UTF-8.  The loop leaves two sockets, the first with the page sent and
    the second with nothing sent, and reports the decoding error; the third
    arrival is not served. *)
Lemma serve_forever_witness :
  let first := site (request_bytes "GET /index.html HTTP/1.1") in
  let second := site (request_bytes "GET /latin.html HTTP/1.1") in
  let third := site (request_bytes "GET /index.html HTTP/1.1") in
  Single.serve_forever [first; second; third]
  = ([snd (Single.serve_connection first fresh_sock);
      snd (Single.serve_connection second fresh_sock)],
     Some UnicodeDecodeError)
  /\ (List.length (fst (Single.serve_forever [first; second; third])) <= 3)%nat
  /\ is_IOError UnicodeDecodeError = false.
Proof.
  intros first second third.
  destruct serve_forever_invariants as [_ [Hstop Hinv]].
  destruct (Hinv [first; second; third]) as [_ [Hlen [_ Hexn]]].
  split; [|split; [exact Hlen|]].
  - apply (Hstop [first] second [third] UnicodeDecodeError);
      [repeat constructor | vm_compute; reflexivity].
  - apply Hexn; [repeat constructor; intros k; reflexivity | vm_compute; reflexivity].
Defined.

(** * More on [send_error] *)

(** X15.  [send_error] with a body of the caller's: the body is sent as it
    is, after a head whose Content-Length is its length, whatever the code
    and the (ISO-8859-1) reason; and when the reason has a character above
    U+00FF the head cannot be encoded, so UnicodeEncodeError is raised before
    anything is sent. *)
Theorem send_error_with_body (w : World) (code : N) (rsn : str)
        (content : bytes) (s : Sock) :
  healthy w ->
  closed s = false ->
  (is_latin1 rsn = true ->
   Threaded.send_error w code rsn None (Some content) s
   = (Ok tt, after s (chunks
        {| status := code; reason := rsn;
           headers := [ (lit "Date", text (date w));
                        (lit "Server", lit "CS538Toy/1.0");
                        (lit "Content-Type", lit "text/html; charset=utf-8");
                        (lit "Content-Length", str_of_N (len content));
                        (lit "Connection", lit "close") ];
           body := content |})))
  /\ (is_latin1 rsn = false ->
      forall extra,
        Threaded.send_error w code rsn extra (Some content) s
        = (Raise UnicodeEncodeError, s)).
Proof.
  intros Hw Hs. split.
  - intros Hl. unfold Threaded.send_error. unfold bind at 1. cbn [ret].
    apply (send_response_run w Hw _
             {| status := code; reason := rsn;
                headers := [ (lit "Date", text (date w));
                             (lit "Server", lit "CS538Toy/1.0");
                             (lit "Content-Type", lit "text/html; charset=utf-8");
                             (lit "Content-Length", str_of_N (len content));
                             (lit "Connection", lit "close") ];
                body := content |} s Hs).
    + apply send_error_block.
    + apply head_text_latin1; [exact Hl|].
      cbn [headers forallb fst snd].
      repeat rewrite is_latin1_lit. rewrite is_latin1_text, is_latin1_str_of_N.
      reflexivity.
  - intros Hl extra. unfold Threaded.send_error. unfold bind at 1. cbn [ret].
    unfold bind at 1.
    match goal with
    | |- context [encode_latin1 ?block] =>
        assert (E : encode_latin1 block = None)
    end.
    { unfold encode_latin1. repeat rewrite is_latin1_app. rewrite Hl.
      now rewrite !andb_false_r. }
    now rewrite E.
Qed.

(** Concrete cases of X15: a plain-text body, and a reason with U+2019. *)
Lemma send_error_witness :
  let w := site [] in
  Threaded.send_error w 503 (lit "Busy") None
                      (Some (list_byte_of_string "try later")) fresh_sock
  = (Ok tt, after fresh_sock (chunks
       {| status := 503; reason := lit "Busy";
          headers := [ (lit "Date", text (date w));
                       (lit "Server", lit "CS538Toy/1.0");
                       (lit "Content-Type", lit "text/html; charset=utf-8");
                       (lit "Content-Length", lit "9");
                       (lit "Connection", lit "close") ];
          body := list_byte_of_string "try later" |}))
  /\ Threaded.send_error w 404 (lit "Can" ++ [8217] ++ lit "t find it") None
                         (Some (list_byte_of_string "x")) fresh_sock
     = (Raise UnicodeEncodeError, fresh_sock).
Proof.
  split.
  - apply (proj1 (send_error_with_body (site []) 503 (lit "Busy")
                    (list_byte_of_string "try later") fresh_sock
                    (fun k => eq_refl) eq_refl)).
    reflexivity.
  - apply (proj2 (send_error_with_body (site []) 404
                    (lit "Can" ++ [8217] ++ lit "t find it")
                    (list_byte_of_string "x") fresh_sock
                    (fun k => eq_refl) eq_refl)).
    reflexivity.
Defined.

(** * More on what the handlers read *)

(** Bytes that cannot start a UTF-8 sequence: continuation bytes, C0, C1
    and F5 to FF. *)
Lemma utf8_decode_go_strays (fuel : nat) (bs : list N) :
  forallb (fun b => ((128 <=? b) && (b <? 194)) || (245 <=? b)) bs = true ->
  utf8_decode_go fuel Ignore bs = Some [].
Proof.
  revert bs; induction fuel as [|fuel IH]; intros [|b0 rest] H;
    try reflexivity.
  cbn [forallb] in H. apply andb_true_iff in H as [Hb Hrest].
  cbn [utf8_decode_go].
  assert (E : utf8_step b0 rest = Malformed 1).
  { unfold utf8_step.
    apply orb_true_iff in Hb as [Hb | Hb].
    - apply andb_true_iff in Hb as [H1 H2].
      apply N.leb_le in H1. rewrite H2.
      destruct (N.ltb_spec b0 128); [lia | reflexivity].
    - apply N.leb_le in Hb.
      repeat match goal with
             | |- context [?a <? ?b] => destruct (N.ltb_spec a b); try lia
             end.
      reflexivity. }
  rewrite E. now apply IH.
Qed.

Lemma forallb_to_N (f : N -> bool) (b : bytes) :
  forallb f (map Byte.to_N b) = forallb (fun x => f (Byte.to_N x)) b.
Proof. induction b as [|x b IH]; [reflexivity|]. simpl. now rewrite IH. Qed.

(** X16.  A request whose text is empty once undecodable bytes are dropped
    gets no response from either server, which just closes the socket; this
    is so for any input made only of bytes that cannot start a UTF-8
    sequence (80 to C1, F5 to FF). *)
Theorem undecodable_input_is_silent (root : str) (w : World) (b : bytes) :
  incoming w = Ok b ->
  forallb (fun x => ((128 <=? Byte.to_N x) && (Byte.to_N x <? 194))
                    || (245 <=? Byte.to_N x)) b = true ->
  Threaded.handle_client root w fresh_sock = (Ok tt, shut fresh_sock)
  /\ Single.serve_connection w fresh_sock = (Ok tt, shut fresh_sock).
Proof.
  intros Hi Hb.
  assert (Hd : forall n, utf8_decode Ignore (firstn n b) = Some []).
  { intros n. apply utf8_decode_go_strays. rewrite forallb_to_N.
    rewrite <- (firstn_skipn n b), forallb_app in Hb.
    now apply andb_true_iff in Hb as [Hb _]. }
  split.
  - unfold Threaded.handle_client, try_finally, try_except, Threaded.attempt,
      bind, recv. cbn [closed fresh_sock]. rewrite Hi, Hd. reflexivity.
  - unfold Single.serve_connection, try_finally, try_except, Single.request,
      bind, recv. cbn [closed fresh_sock]. rewrite Hi, Hd. reflexivity.
Qed.

(** A concrete case of X16: the three bytes FF FE 80. *)
Lemma undecodable_witness :
  Threaded.handle_client WEB_ROOT (site [xff; xfe; x80]) fresh_sock
  = (Ok tt, shut fresh_sock)
  /\ Single.serve_connection (site [xff; xfe; x80]) fresh_sock
     = (Ok tt, shut fresh_sock).
Proof.
  apply (undecodable_input_is_silent WEB_ROOT (site [xff; xfe; x80])
           [xff; xfe; x80]); reflexivity.
Defined.

(** X17.  Of a three-token request line only the method and the path count:
    the version token is never examined, and neither is the whitespace
    between the tokens nor anything after the line.  Two such requests with
    the same method and path are handled alike by each server. *)
Theorem only_method_and_path_count (root : str) (w : World) (b b' : bytes)
        (method path version version' : str) (s : Sock) :
  (forall data data',
      utf8_decode Ignore (firstn 4096 b) = Some data ->
      utf8_decode Ignore (firstn 4096 b') = Some data' ->
      split_ws (request_line data) = [method; path; version] ->
      split_ws (request_line data') = [method; path; version'] ->
      Threaded.handle_client root (with_incoming w (Ok b)) s
      = Threaded.handle_client root (with_incoming w (Ok b')) s)
  /\ (forall data data',
        utf8_decode Ignore (firstn 2048 b) = Some data ->
        utf8_decode Ignore (firstn 2048 b') = Some data' ->
        split_ws (first_line data) = [method; path; version] ->
        split_ws (first_line data') = [method; path; version'] ->
        Single.serve_connection (with_incoming w (Ok b)) s
        = Single.serve_connection (with_incoming w (Ok b')) s).
Proof.
  split.
  - intros data data' Hb Hb' Ht Ht'.
    unfold Threaded.handle_client, try_finally, try_except.
    assert (E : Threaded.attempt root (with_incoming w (Ok b)) s
                = Threaded.attempt root (with_incoming w (Ok b')) s).
    { unfold Threaded.attempt, bind, recv. cbn [incoming with_incoming].
      destruct (closed s); [reflexivity|]. rewrite Hb, Hb'. cbn [of_option ret].
      change (Threaded.respond root (with_incoming w (Ok b)) data s)
        with (Threaded.respond root w data s).
      change (Threaded.respond root (with_incoming w (Ok b')) data' s)
        with (Threaded.respond root w data' s).
      rewrite (respond_wellformed root w data _ _ _ Ht).
      now rewrite (respond_wellformed root w data' _ _ _ Ht'). }
    rewrite E. reflexivity.
  - intros data data' Hb Hb' Ht Ht'.
    unfold Single.serve_connection, try_finally, try_except.
    assert (E : Single.request (with_incoming w (Ok b)) s
                = Single.request (with_incoming w (Ok b')) s).
    { unfold Single.request, bind, recv. cbn [incoming with_incoming].
      destruct (closed s); [reflexivity|]. rewrite Hb, Hb'. cbn [of_option ret].
      destruct data as [|c data]; [discriminate Ht|].
      destruct data' as [|c' data']; [discriminate Ht'|]. cbn [is_empty].
      rewrite !first_line_or_empty.
      rewrite (parse_wellformed _ _ _ _ Ht), (parse_wellformed _ _ _ _ Ht').
      destruct (str_eqb method (lit "GET")); reflexivity. }
    rewrite E. reflexivity.
Qed.

(** A concrete case of X17: tabs between the tokens and an unknown version. *)
Lemma method_and_path_witness :
  let b := request_bytes "GET /index.html HTTP/1.1" in
  let b' := list_byte_of_string "GET" ++ [x09] ++ list_byte_of_string "/index.html"
            ++ [x09; x09] ++ list_byte_of_string "SPDY/9" ++ [x0d; x0a; x0d; x0a] in
  Threaded.handle_client WEB_ROOT (with_incoming (site []) (Ok b)) fresh_sock
  = Threaded.handle_client WEB_ROOT (with_incoming (site []) (Ok b')) fresh_sock
  /\ Single.serve_connection (with_incoming (site []) (Ok b)) fresh_sock
     = Single.serve_connection (with_incoming (site []) (Ok b')) fresh_sock.
Proof.
  pose proof (only_method_and_path_count WEB_ROOT (site [])
                (request_bytes "GET /index.html HTTP/1.1")
                (list_byte_of_string "GET" ++ [x09]
                 ++ list_byte_of_string "/index.html" ++ [x09; x09]
                 ++ list_byte_of_string "SPDY/9" ++ [x0d; x0a; x0d; x0a])
                (lit "GET") (lit "/index.html") (lit "HTTP/1.1") (lit "SPDY/9")
                fresh_sock) as [Ht Hs].
  split.
  - eapply Ht; vm_compute; reflexivity.
  - eapply Hs; vm_compute; reflexivity.
Defined.

(** * The framing of a response *)

Lemma split_head_go_other (x : byte) (cur : list byte) (b : bytes) :
  x <> x0d -> split_head_go cur (x :: b) = split_head_go (x :: cur) b.
Proof. intros H. destruct x; try reflexivity. now contradiction H. Qed.

Lemma split_head_go_skip (l : bytes) (cur : list byte) (b : bytes) :
  ~ In x0d l -> split_head_go cur (l ++ b) = split_head_go (rev l ++ cur) b.
Proof.
  revert cur; induction l as [|x l IH]; intros cur H; [reflexivity|].
  cbn [app]. rewrite split_head_go_other by (intros ->; apply H; now left).
  rewrite IH by (intros Hin; apply H; now right).
  cbn [rev]. now rewrite <- app_assoc.
Qed.

Lemma split_head_go_line (y : byte) (cur : list byte) (b : bytes) :
  y <> x0d ->
  split_head_go cur (x0d :: x0a :: y :: b)
  = split_head_go (x0a :: x0d :: cur) (y :: b).
Proof. intros H. destruct y; try reflexivity. now contradiction H. Qed.

(** Lines without CR, none empty after the first, each after a CR LF, and
    then a blank line: the scan stops at the blank line. *)
Lemma split_head_go_lines (lines : list bytes) (l0 cur : list byte) (content : bytes) :
  ~ In x0d l0 ->
  Forall (fun l => l <> [] /\ ~ In x0d l) lines ->
  split_head_go cur (l0 ++ flat_map (fun l => x0d :: x0a :: l) lines
                     ++ x0d :: x0a :: x0d :: x0a :: content)
  = Some (text (rev cur ++ l0 ++ flat_map (fun l => x0d :: x0a :: l) lines),
          content).
Proof.
  revert l0 cur; induction lines as [|l lines IH]; intros l0 cur H0 Hl.
  - cbn [flat_map app]. rewrite split_head_go_skip by exact H0.
    cbn [split_head_go]. rewrite rev_app_distr, rev_involutive, app_nil_r.
    reflexivity.
  - inversion Hl as [|? ? [Hne Hcr] Hrest]; subst.
    cbn [flat_map]. rewrite split_head_go_skip by exact H0.
    destruct l as [|y l]; [contradiction|].
    rewrite <- !app_assoc. cbn [app].
    rewrite split_head_go_line by (intros ->; apply Hcr; now left).
    change (y :: l ++ flat_map (fun l1 => x0d :: x0a :: l1) lines
              ++ x0d :: x0a :: x0d :: x0a :: content)
      with ((y :: l) ++ flat_map (fun l1 => x0d :: x0a :: l1) lines
              ++ x0d :: x0a :: x0d :: x0a :: content).
    rewrite (IH (y :: l) _ Hcr Hrest). do 2 f_equal.
    cbn [rev]. rewrite rev_app_distr, rev_involutive.
    rewrite <- !app_assoc. reflexivity.
Qed.

Lemma byte_of_N_cr (c : N) : byte_of_N c = x0d -> c = CR.
Proof.
  unfold byte_of_N. destruct (Byte.of_N c) as [b|] eqn:E; [|discriminate].
  intros ->. apply Byte.to_of_N in E. now rewrite <- E.
Qed.

Lemma latin1_bytes_cr_free (s : str) :
  cr_free s = true -> ~ In x0d (latin1_bytes s).
Proof.
  induction s as [|c s IH]; [easy|]. cbn [cr_free forallb latin1_bytes map].
  intros H [Hc | Hin]; apply andb_true_iff in H as [H1 H2].
  - apply byte_of_N_cr in Hc. subst c. discriminate H1.
  - now apply IH.
Qed.

Lemma text_latin1_bytes (s : str) :
  is_latin1 s = true -> text (latin1_bytes s) = s.
Proof.
  induction s as [|c s IH]; [reflexivity|].
  cbn [is_latin1 forallb]. intros H. apply andb_true_iff in H as [Hc Hs].
  unfold text, latin1_bytes in *. cbn [map]. rewrite (IH Hs). f_equal.
  unfold byte_of_N. apply N.ltb_lt in Hc.
  destruct (Byte.of_N c) as [b|] eqn:E; [now apply Byte.to_of_N|].
  apply Byte.of_N_None_iff in E. lia.
Qed.

Lemma cr_free_app (a b : str) : cr_free (a ++ b) = cr_free a && cr_free b.
Proof. apply forallb_app. Qed.

Lemma cr_free_digits (d : Decimal.uint) :
  cr_free (lit (NilEmpty.string_of_uint d)) = true.
Proof. induction d; try reflexivity; exact IHd. Qed.

Lemma header_lines_shift (hs : list (str * str)) :
  CRLF ++ flat_map header_line hs
  = flat_map (fun h => CRLF ++ fst h ++ lit ": " ++ snd h) hs ++ CRLF.
Proof.
  induction hs as [|h hs IH]; [reflexivity|]. cbn [flat_map].
  change (header_line h) with (fst h ++ lit ": " ++ snd h ++ CRLF).
  rewrite <- !app_assoc, <- IH. reflexivity.
Qed.

Lemma head_text_lines (r : Response) :
  head_text r = head_lines r ++ CRLF ++ CRLF.
Proof.
  unfold head_text, head_lines. rewrite <- !app_assoc. do 4 f_equal.
  rewrite (app_assoc CRLF), header_lines_shift. now rewrite <- app_assoc.
Qed.

Lemma latin1_bytes_lines (l0 : str) (hs : list (str * str)) :
  latin1_bytes (l0 ++ flat_map (fun h => CRLF ++ fst h ++ lit ": " ++ snd h) hs)
  = latin1_bytes l0
    ++ flat_map (fun l => x0d :: x0a :: l)
                (map (fun h => latin1_bytes (fst h ++ lit ": " ++ snd h)) hs).
Proof.
  unfold latin1_bytes. rewrite map_app. f_equal.
  induction hs as [|h hs IH]; [reflexivity|].
  cbn [flat_map map]. rewrite !map_app, IH. reflexivity.
Qed.

Lemma header_bytes_lines (hs : list (str * str)) :
  forallb (fun h => cr_free (fst h) && cr_free (snd h)) hs = true ->
  Forall (fun l => l <> [] /\ ~ In x0d l)
         (map (fun h => latin1_bytes (fst h ++ lit ": " ++ snd h)) hs).
Proof.
  induction hs as [|h hs IH]; [constructor|].
  cbn [forallb map]. intros Hh. apply andb_true_iff in Hh as [Hh Hhs].
  apply andb_true_iff in Hh as [Hn Hv].
  constructor; [|now apply IH]. split.
  - unfold latin1_bytes. rewrite !map_app.
    intros E. apply app_eq_nil in E as [_ E].
    apply app_eq_nil in E as [E _]. discriminate E.
  - apply latin1_bytes_cr_free. rewrite !cr_free_app.
    apply andb_true_iff. split; [exact Hn|].
    apply andb_true_iff. split; [reflexivity | exact Hv].
Qed.

(** In the bytes of a response whose reason, header names and header values
    hold no CR, the first blank line is the one that ends the head. *)
Lemma response_framing (r : Response) (content : bytes) :
  cr_free (reason r) = true ->
  forallb (fun h => cr_free (fst h) && cr_free (snd h)) (headers r) = true ->
  is_latin1 (head_text r) = true ->
  split_head_go [] (latin1_bytes (head_text r) ++ content)
  = Some (head_lines r, content).
Proof.
  intros Hr Hh Hl. rewrite head_text_lines in *.
  rewrite is_latin1_app in Hl. apply andb_true_iff in Hl as [Hl _].
  assert (E : latin1_bytes (head_lines r)
              = latin1_bytes (lit "HTTP/1.1 " ++ str_of_N (status r)
                              ++ lit " " ++ reason r)
                ++ flat_map (fun l => x0d :: x0a :: l)
                     (map (fun h => latin1_bytes (fst h ++ lit ": " ++ snd h))
                          (headers r)))
    by apply latin1_bytes_lines.
  replace (latin1_bytes (head_lines r ++ CRLF ++ CRLF))
    with (latin1_bytes (head_lines r) ++ [x0d; x0a; x0d; x0a])
    by (unfold latin1_bytes; now rewrite map_app).
  rewrite E, <- !app_assoc. cbn [app].
  rewrite split_head_go_lines;
    [cbn [rev app]; now rewrite <- E, (text_latin1_bytes _ Hl) | |].
  - apply latin1_bytes_cr_free. rewrite !cr_free_app, Hr.
    unfold str_of_N. now rewrite cr_free_digits.
  - now apply header_bytes_lines.
Qed.

Lemma threaded_response_cr_free (w : World) (r : Response) :
  cr_free (text (date w)) = true ->
  (forall p t, guess_type w p = Some t -> cr_free (text t) = true) ->
  threaded_response w r ->
  cr_free (reason r) = true
  /\ forallb (fun h => cr_free (fst h) && cr_free (snd h)) (headers r) = true.
Proof.
  intros Hd Hg [ | | | | filepath content]; (split; [reflexivity|]);
    cbn [headers error_response ok_response app forallb fst snd];
    rewrite Hd; unfold str_of_N; rewrite cr_free_digits; try reflexivity.
  assert (E : cr_free (content_type_for (guess_type w filepath)) = true).
  { unfold content_type_for.
    destruct (guess_type w filepath) as [[|b bs]|] eqn:Eg;
      match goal with |- context [startswith ?t ?p] => destruct (startswith t p) end;
      rewrite ?cr_free_app, ?(Hg _ _ Eg); reflexivity. }
  now rewrite E.
Qed.

(** X18.  When the date and the MIME types hold no CR, the multithreaded
    server frames its response so that a reader finds the body: the first
    blank line on the wire is the end of the head, the bytes before it are
    the status line and one line per header, and the bytes after it are
    exactly the body, whatever the body holds. *)
Theorem body_starts_after_the_first_blank_line (root : str) (w : World) :
  healthy w ->
  cr_free (text (date w)) = true ->
  (forall p t, guess_type w p = Some t -> cr_free (text t) = true) ->
  wire (snd (Threaded.handle_client root w fresh_sock)) = []
  \/ exists r,
      threaded_response w r
      /\ wire (snd (Threaded.handle_client root w fresh_sock))
         = latin1_bytes (head_text r) ++ body r
      /\ split_head_go [] (wire (snd (Threaded.handle_client root w fresh_sock)))
         = Some (head_lines r, body r).
Proof.
  intros Hw Hd Hg.
  destruct (threaded_cases root w Hw) as [H | [r [Hr H]]]; rewrite H.
  - now left.
  - right. exists r. split; [exact Hr|].
    assert (E : wire (snd (Ok tt, shut (after fresh_sock (chunks r))))
                = latin1_bytes (head_text r) ++ body r).
    { unfold wire. cbn [snd shut after sent fresh_sock chunks app List.concat].
      now rewrite app_nil_r. }
    rewrite E. split; [reflexivity|].
    destruct (threaded_response_cr_free w r Hd Hg Hr) as [H1 H2].
    apply response_framing; [exact H1 | exact H2 |].
    now apply (threaded_response_latin1 w).
Qed.

(** A concrete case of X18: the page of the site, whose body ends in CR LF. *)
Lemma framing_witness :
  let w := site (request_bytes "GET /index.html HTTP/1.1") in
  wire (snd (Threaded.handle_client WEB_ROOT w fresh_sock)) = []
  \/ exists r,
      threaded_response w r
      /\ wire (snd (Threaded.handle_client WEB_ROOT w fresh_sock))
         = latin1_bytes (head_text r) ++ body r
      /\ split_head_go [] (wire (snd (Threaded.handle_client WEB_ROOT w fresh_sock)))
         = Some (head_lines r, body r).
Proof.
  apply (body_starts_after_the_first_blank_line WEB_ROOT
           (site (request_bytes "GET /index.html HTTP/1.1"))).
  - intros k. reflexivity.
  - vm_compute. reflexivity.
  - intros p t. cbn [guess_type site]. unfold html_type.
    destruct (endswith_char p 108); [|discriminate].
    intros H. injection H as <-. vm_compute. reflexivity.
Defined.

(** * A transport that fails *)

Lemma sendall_fails (w : World) (data : bytes) (s : Sock) :
  (forall k, transport w k <> None) ->
  closed s = false ->
  exists s', sendall w data s = (Raise OSError, s') /\ closed s' = false.
Proof.
  intros Hdead Hs. unfold sendall. rewrite Hs.
  destruct (transport w (calls s)) as [n|] eqn:E; [|now apply Hdead in E].
  now eexists.
Qed.

Lemma send_response_fails (w : World) (header_block : str) (r : Response)
      (s : Sock) :
  (forall k, transport w k <> None) ->
  closed s = false ->
  header_block = head_text r ->
  is_latin1 (head_text r) = true ->
  exists s',
    (header_bytes <- of_option UnicodeEncodeError (encode_latin1 header_block) ;;
     sendall w header_bytes ;;; sendall w (body r)) s
    = (Raise OSError, s')
    /\ closed s' = false.
Proof.
  intros Hdead Hs -> Hl. unfold bind. rewrite (encode_latin1_ok _ Hl).
  cbn [of_option ret].
  destruct (sendall_fails w (latin1_bytes (head_text r)) s Hdead Hs)
    as [s' [-> Hs']].
  now exists s'.
Qed.

Lemma not_found_fails (w : World) (s : Sock) :
  (forall k, transport w k <> None) ->
  closed s = false ->
  exists s', Single.not_found w s = (Raise OSError, s') /\ closed s' = false.
Proof.
  intros Hdead Hs. unfold Single.not_found.
  apply (send_response_fails w _ single_not_found_response s Hdead Hs).
  - apply (single_block 404 (lit "Not Found")).
  - apply (single_response_latin1 w). now right.
Qed.

Lemma serve_path_fails (w : World) (path : str) (s : Sock) :
  (forall k, transport w k <> None) ->
  closed s = false ->
  exists e s', Single.serve_path w path s = (Raise e, s') /\ closed s' = false.
Proof.
  intros Hdead Hs. unfold Single.serve_path. unfold bind at 1.
  destruct (Single.read_content w (Single.request_filepath path))
    as [content|e]; [|now exists e, s].
  cbn [of_result ret].
  destruct (send_response_fails w
              (lit "HTTP/1.1 200 OK" ++ CRLF
               ++ lit "Content-Type: "
               ++ Single.content_type_of w (Single.request_filepath path) ++ CRLF
               ++ lit "Content-Length: " ++ str_of_N (len content) ++ CRLF
               ++ lit "Connection: close" ++ CRLF ++ CRLF)
              (single_ok_response
                 (Single.content_type_of w (Single.request_filepath path)) content)
              s Hdead Hs) as [s' [H Hs']].
  - apply (single_block 200 (lit "OK")).
  - apply (single_response_latin1 w). left. now eexists _, _.
  - exists OSError, s'. split; [exact H | exact Hs'].
Qed.

(** X19.  A connection on which every send fails ends the single-threaded
    server, whatever the request (as long as its text is not empty): the
    failed send is caught as an IOError, the 404 response is tried on the same
    socket, and the exception of that send leaves the loop. *)
Theorem single_dead_transport_ends_the_loop (w : World) (data : str)
        (rest : list World) :
  (forall k, transport w k <> None) ->
  request_text 2048 w = Some data ->
  data <> [] ->
  exists e s,
    Single.serve_connection w fresh_sock = (Raise e, s)
    /\ closed s = true
    /\ Single.serve_forever (w :: rest) = ([s], Some e).
Proof.
  intros Hdead Hr Hd.
  assert (H : exists e s, Single.serve_connection w fresh_sock = (Raise e, s)
                          /\ closed s = true).
  { unfold Single.serve_connection, try_finally, try_except, close.
    rewrite (request_parsed w data fresh_sock eq_refl Hr Hd). unfold bind.
    assert (Hp : (exists parsed, Single.parse_request_line (first_line data) fresh_sock
                                 = (Ok parsed, fresh_sock))
                 \/ Single.parse_request_line (first_line data) fresh_sock
                    = (Raise OSError, fresh_sock)).
    { unfold Single.parse_request_line, try_except.
      destruct (split_ws (first_line data)) as [|m [|p [|v [|x l]]]];
        try (left; now eexists).
      destruct (negb (str_eqb m (lit "GET"))); [now right | left; now eexists]. }
    destruct Hp as [[parsed ->] | ->].
    - destruct (serve_path_fails w (snd (fst parsed)) fresh_sock Hdead eq_refl)
        as [e [s' [-> Hs']]].
      destruct (is_IOError e).
      + destruct (not_found_fails w s' Hdead Hs') as [s'' [-> _]]. now eexists _, _.
      + now eexists _, _.
    - cbn [is_IOError].
      destruct (not_found_fails w fresh_sock Hdead eq_refl) as [s'' [-> _]].
      now eexists _, _. }
  destruct H as [e [s [H Hc]]]. exists e, s.
  split; [exact H|]. split; [exact Hc|].
  cbn [Single.serve_forever]. now rewrite H.
Qed.

(** A concrete case of X19: a client that has gone away before the answer. *)
Lemma single_dead_transport_witness :
  let w := {| incoming := Ok (request_bytes "GET /index.html HTTP/1.1");
              transport := fun _ => Some 0%nat;
              date := [];
              guess_type := html_type;
              isfile := fun _ => true;
              read_file := fun _ => Ok page |} in
  exists e s,
    Single.serve_connection w fresh_sock = (Raise e, s)
    /\ closed s = true
    /\ Single.serve_forever [w; site (request_bytes "GET /index.html HTTP/1.1")]
       = ([s], Some e).
Proof.
  apply (single_dead_transport_ends_the_loop _
           (lit "GET /index.html HTTP/1.1" ++ CRLF ++ CRLF));
    [discriminate | vm_compute; reflexivity | discriminate].
Defined.

(** * Reading a response off the wire *)

From Stdlib Require Import DecimalN.
Local Open Scope N_scope.

Lemma number_digits_acc (d : Decimal.uint) (acc : positive) :
  fold_left (fun a c => 10 * a + (c - 48)) (lit (NilEmpty.string_of_uint d))
            (Npos acc)
  = Npos (Pos.of_uint_acc d acc).
Proof.
  revert acc; induction d; intros acc; try reflexivity;
    cbn [NilEmpty.string_of_uint Pos.of_uint_acc];
    change (lit (String ?c ?s)) with (N_of_ascii c :: lit s);
    cbn [fold_left];
    match goal with
    | |- fold_left _ _ ?x = Npos (Pos.of_uint_acc _ ?y) =>
        replace x with (Npos y)
          by (match goal with
              | |- context [N_of_ascii ?c - 48] =>
                  let v := eval vm_compute in (N_of_ascii c - 48) in
                  change (N_of_ascii c - 48) with v
              end; lia)
    end;
    apply IHd.
Qed.

Lemma number_digits (d : Decimal.uint) :
  number (lit (NilEmpty.string_of_uint d)) = N.of_uint d.
Proof.
  unfold number, N.of_uint.
  induction d; try reflexivity;
    cbn [NilEmpty.string_of_uint Pos.of_uint];
    change (lit (String ?c ?s)) with (N_of_ascii c :: lit s);
    cbn [fold_left];
    try exact IHd;
    match goal with
    | |- fold_left _ _ ?x = Npos (Pos.of_uint_acc _ ?y) =>
        change x with (Npos y)
    end;
    apply number_digits_acc.
Qed.

(** The decimal text of a number reads back as that number. *)
Lemma number_str_of_N (n : N) : number (str_of_N n) = n.
Proof.
  unfold str_of_N. rewrite number_digits. apply DecimalN.Unsigned.of_to.
Qed.

Lemma digits_only (d : Decimal.uint) :
  forallb (fun c => (48 <=? c) && (c <=? 57)) (lit (NilEmpty.string_of_uint d))
  = true.
Proof. induction d; try reflexivity; exact IHd. Qed.

Lemma is_decimal_str_of_N (n : N) : is_decimal (str_of_N n) = true.
Proof.
  unfold is_decimal. apply andb_true_iff. split; [|apply digits_only].
  destruct n as [|p]; [reflexivity|].
  pose proof (number_str_of_N (Npos p)) as H.
  destruct (str_of_N (Npos p)); [discriminate H | reflexivity].
Qed.

Lemma lstrip_decimal (s : str) : is_decimal s = true -> lstrip 32 s = s.
Proof.
  unfold is_decimal. destruct s as [|c s]; [reflexivity|].
  cbn [is_empty negb forallb andb lstrip]. intros H.
  apply andb_true_iff in H as [H _]. apply andb_true_iff in H as [H _].
  apply N.leb_le in H. destruct (N.eqb_spec c 32); [lia | reflexivity].
Qed.

Lemma split_crlf_go_other (x : char) (cur s : str) :
  (x =? CR) = false ->
  split_crlf_go cur (x :: s) = split_crlf_go (x :: cur) s.
Proof. intros H. destruct s; cbn [split_crlf_go]; now rewrite ?H. Qed.

Lemma split_crlf_go_skip (l cur s : str) :
  cr_free l = true ->
  split_crlf_go cur (l ++ s) = split_crlf_go (rev l ++ cur) s.
Proof.
  revert cur; induction l as [|x l IH]; intros cur H; [reflexivity|].
  cbn [cr_free forallb] in H. apply andb_true_iff in H as [Hx Hl].
  cbn [app]. rewrite split_crlf_go_other by now destruct (x =? CR).
  rewrite (IH _ Hl). cbn [rev]. now rewrite <- app_assoc.
Qed.

(** Lines without CR, joined by CR LF, split back into those lines. *)
Lemma split_crlf_go_lines (lines : list str) (l0 cur : str) :
  cr_free l0 = true ->
  forallb cr_free lines = true ->
  split_crlf_go cur (l0 ++ flat_map (fun l => CRLF ++ l) lines)
  = (rev cur ++ l0) :: lines.
Proof.
  revert l0 cur; induction lines as [|l lines IH]; intros l0 cur H0 Hl.
  - cbn [flat_map]. rewrite split_crlf_go_skip by exact H0.
    cbn [split_crlf_go]. now rewrite rev_app_distr, rev_involutive.
  - cbn [forallb] in Hl. apply andb_true_iff in Hl as [Hl Hls].
    cbn [flat_map]. rewrite split_crlf_go_skip by exact H0.
    rewrite <- app_assoc.
    change (CRLF ++ l ++ flat_map (fun l1 => CRLF ++ l1) lines)
      with (CR :: LF :: l ++ flat_map (fun l1 => CRLF ++ l1) lines).
    cbn [split_crlf_go]. change ((CR =? CR) && (LF =? LF)) with true.
    cbv iota. rewrite (IH l [] Hl Hls).
    now rewrite rev_app_distr, rev_involutive.
Qed.

Lemma cut_at_first (c : char) (n rest cur : str) :
  forallb (fun x => negb (x =? c)) n = true ->
  cut_at c cur (n ++ c :: rest) = (rev cur ++ n, rest).
Proof.
  revert cur; induction n as [|x n IH]; intros cur H; cbn [app cut_at].
  - now rewrite N.eqb_refl, app_nil_r.
  - cbn [forallb] in H. apply andb_true_iff in H as [Hx Hn].
    destruct (x =? c); [discriminate|]. rewrite (IH _ Hn).
    cbn [rev]. now rewrite <- app_assoc.
Qed.

Lemma parse_header_line (n v : str) :
  forallb (fun x => negb (x =? 58)) n = true ->
  parse_header (n ++ lit ": " ++ v) = (n, lstrip 32 v).
Proof.
  intros H. unfold parse_header.
  assert (E : cut_at 58 [] (n ++ lit ": " ++ v) = (n, 32 :: v))
    by exact (cut_at_first 58 n (32 :: v) [] H).
  now rewrite E.
Qed.

Lemma flat_map_lines (hs : list (str * str)) :
  flat_map (fun h => CRLF ++ fst h ++ lit ": " ++ snd h) hs
  = flat_map (fun l => CRLF ++ l) (map (fun h => fst h ++ lit ": " ++ snd h) hs).
Proof. induction hs as [|h hs IH]; [reflexivity|]. cbn [flat_map map]. now rewrite IH. Qed.

(** What the reader makes of the bytes of a response whose reason, header
    names and header values hold no CR and whose header names hold no colon:
    the same headers (values without leading spaces) and the same body. *)
Lemma parse_response_wire (r : Response) :
  cr_free (reason r) = true ->
  forallb (fun h => cr_free (fst h) && cr_free (snd h)) (headers r) = true ->
  forallb (fun h => forallb (fun x => negb (x =? 58)) (fst h)) (headers r) = true ->
  is_latin1 (head_text r) = true ->
  exists st rs,
    parse_response (latin1_bytes (head_text r) ++ body r)
    = Some {| status := st; reason := rs;
              headers := map (fun h => (fst h, lstrip 32 (snd h))) (headers r);
              body := body r |}.
Proof.
  intros Hr Hh Hc Hl. unfold parse_response.
  rewrite (response_framing r (body r) Hr Hh Hl). unfold head_lines.
  rewrite flat_map_lines. unfold split_crlf.
  rewrite split_crlf_go_lines.
  - cbn [rev app].
    destruct (cut_at 32 [] _) as [version r1].
    destruct (cut_at 32 [] r1) as [code r2].
    exists (number code), r2. do 2 f_equal.
    rewrite map_map. apply map_ext_in. intros h Hin.
    apply parse_header_line.
    rewrite forallb_forall in Hc. now apply Hc.
  - rewrite !cr_free_app, Hr. unfold str_of_N. now rewrite cr_free_digits.
  - clear Hl Hc. induction (headers r) as [|h hs IH]; [reflexivity|].
    cbn [forallb map] in *. apply andb_true_iff in Hh as [Hh Hhs].
    apply andb_true_iff in Hh as [Hn Hv].
    apply andb_true_iff. split; [|now apply IH].
    rewrite !cr_free_app. apply andb_true_iff. split; [exact Hn|].
    apply andb_true_iff. split; [reflexivity | exact Hv].
Qed.

(** From the headers of a response to what the reader finds on the wire. *)
Lemma wire_content_length (r : Response) :
  cr_free (reason r) = true ->
  forallb (fun h => cr_free (fst h) && cr_free (snd h)) (headers r) = true ->
  forallb (fun h => forallb (fun x => negb (x =? 58)) (fst h)) (headers r) = true ->
  is_latin1 (head_text r) = true ->
  (exists v, In (lit "Content-Length", v) (headers r)) ->
  (forall h, In h (headers r) -> fst h = lit "Content-Length" ->
             snd h = str_of_N (N.of_nat (List.length (body r)))) ->
  content_length_matches (latin1_bytes (head_text r)) (body r).
Proof.
  intros Hr Hh Hc Hl [v0 Hin0] Honly.
  destruct (parse_response_wire r Hr Hh Hc Hl) as [st [rs Hp]].
  eexists. split; [exact Hp|]. cbn [body headers].
  split; [reflexivity|]. split.
  - exists (lstrip 32 v0).
    apply (in_map (fun h => (fst h, lstrip 32 (snd h))) _ _ Hin0).
  - intros v Hin. apply in_map_iff in Hin as [h [E Hin]].
    injection E as En Ev. rewrite (Honly h Hin En) in Ev. subst v.
    rewrite lstrip_decimal by apply is_decimal_str_of_N.
    split; [apply is_decimal_str_of_N | apply number_str_of_N].
Qed.

Ltac other_header H :=
  exfalso; cbn [fst] in H; apply str_eqb_eq in H; vm_compute in H; discriminate H.

Lemma threaded_response_reads (w : World) (r : Response) :
  cr_free (text (date w)) = true ->
  (forall p t, guess_type w p = Some t -> cr_free (text t) = true) ->
  threaded_response w r ->
  content_length_matches (latin1_bytes (head_text r)) (body r).
Proof.
  intros Hd Hg Hr.
  destruct (threaded_response_cr_free w r Hd Hg Hr) as [H1 H2].
  apply wire_content_length;
    [exact H1 | exact H2 | | now apply (threaded_response_latin1 w) | |].
  - destruct Hr; reflexivity.
  - destruct Hr; eexists; cbn [headers error_response ok_response app In];
      do 3 right; left; reflexivity.
  - destruct Hr; intros h Hin Hf;
      cbn [headers error_response ok_response app In] in Hin;
      repeat (destruct Hin as [<- | Hin]; [first [reflexivity | other_header Hf]|]);
      contradiction.
Qed.

Lemma single_request_typed (w : World) :
  healthy w ->
  Single.request w fresh_sock = (Ok tt, fresh_sock)
  \/ (exists e, Single.request w fresh_sock = (Raise e, fresh_sock))
  \/ exists filepath content,
       Single.request w fresh_sock
       = (Ok tt, after fresh_sock
                   (chunks (single_ok_response
                              (Single.content_type_of w filepath) content))).
Proof.
  intros Hw.
  destruct (request_text 2048 w) as [data|] eqn:Hr.
  - destruct data as [|c data].
    + left. unfold request_text in Hr.
      unfold Single.request, bind, recv. cbn [closed fresh_sock].
      destruct (incoming w) as [b|e]; [|discriminate]. now rewrite Hr.
    + rewrite (request_parsed w (c :: data) fresh_sock eq_refl Hr)
        by discriminate.
      unfold bind.
      assert (Hp : (exists parsed,
                       Single.parse_request_line (first_line (c :: data)) fresh_sock
                       = (Ok parsed, fresh_sock))
                   \/ Single.parse_request_line (first_line (c :: data)) fresh_sock
                      = (Raise OSError, fresh_sock)).
      { unfold Single.parse_request_line, try_except.
        destruct (split_ws _) as [|m [|p [|v [|x l]]]];
          try (left; now eexists).
        destruct (negb (str_eqb m (lit "GET"))); [now right | left; now eexists]. }
      destruct Hp as [[parsed ->] | ->]; [|right; left; now eexists].
      rewrite (serve_path_run w Hw) by reflexivity.
      destruct (Single.read_content _ _) as [content|e].
      * right; right. now eexists _, _.
      * right; left. now exists e.
  - right; left. unfold request_text in Hr.
    unfold Single.request, bind, recv. cbn [closed fresh_sock].
    destruct (incoming w) as [b|e].
    + destruct (utf8_decode_ignore (firstn 2048 b)) as [s Hs]. congruence.
    + now exists e.
Qed.

Lemma single_response_reads (w : World) (r : Response) :
  (forall p t, guess_type w p = Some t -> cr_free (text t) = true) ->
  (exists filepath content,
      r = single_ok_response (Single.content_type_of w filepath) content)
  \/ r = single_not_found_response ->
  content_length_matches (latin1_bytes (head_text r)) (body r).
Proof.
  intros Hg Hr.
  assert (Hct : forall filepath,
             cr_free (Single.content_type_of w filepath) = true).
  { intros filepath. unfold Single.content_type_of.
    destruct (guess_type w filepath) as [t|] eqn:Eg;
      match goal with |- context [startswith ?t ?p] => destruct (startswith t p) end;
      rewrite ?cr_free_app, ?(Hg _ _ Eg); reflexivity. }
  apply wire_content_length;
    try (now apply (single_response_latin1 w));
    destruct Hr as [[filepath [content ->]] | ->]; try reflexivity.
  - cbn [headers single_ok_response forallb fst snd].
    rewrite Hct. unfold str_of_N. now rewrite cr_free_digits.
  - eexists. cbn [headers single_ok_response In]. right; left; reflexivity.
  - eexists. cbn [headers single_not_found_response In]. right; left; reflexivity.
  - intros h Hin Hf. cbn [headers single_ok_response In] in Hin.
    repeat (destruct Hin as [<- | Hin]; [first [reflexivity | other_header Hf]|]).
    contradiction.
  - intros h Hin Hf. cbn [headers single_not_found_response In] in Hin.
    repeat (destruct Hin as [<- | Hin]; [first [reflexivity | other_header Hf]|]).
    contradiction.
Qed.

(** C6.  On a working transport, with a date and MIME types that hold no CR,
    each server sends nothing or exactly two chunks, a head and a body; and a
    reader of those bytes (head up to the first blank line, one header per
    line) finds the second chunk as the body, finds a Content-Length header,
    and finds under that name only the decimal count of the bytes of the
    second chunk. *)
Theorem C6_content_length_is_body_length (root : str) (w : World) :
  healthy w ->
  cr_free (text (date w)) = true ->
  (forall p t, guess_type w p = Some t -> cr_free (text t) = true) ->
  (sent (snd (Threaded.handle_client root w fresh_sock)) = []
   \/ exists head content,
       sent (snd (Threaded.handle_client root w fresh_sock)) = [head; content]
       /\ content_length_matches head content)
  /\ (sent (snd (Single.serve_connection w fresh_sock)) = []
      \/ exists head content,
          sent (snd (Single.serve_connection w fresh_sock)) = [head; content]
          /\ content_length_matches head content).
Proof.
  intros Hw Hd Hg. split.
  - destruct (threaded_cases root w Hw) as [H | [r [Hr H]]]; rewrite H.
    + now left.
    + right. exists (latin1_bytes (head_text r)), (body r).
      split; [reflexivity | now apply (threaded_response_reads w)].
  - unfold Single.serve_connection, try_finally, try_except, close.
    destruct (single_request_typed w Hw) as [H | [[e H] | [fp [content H]]]];
      rewrite H.
    + now left.
    + destruct (is_IOError e); [|now left].
      rewrite (not_found_run w Hw) by reflexivity.
      right. exists (latin1_bytes (head_text single_not_found_response)),
               (body single_not_found_response).
      split; [reflexivity | apply (single_response_reads w _ Hg); now right].
    + right.
      exists (latin1_bytes (head_text
                (single_ok_response (Single.content_type_of w fp) content))),
             content.
      split; [reflexivity|].
      apply (single_response_reads w
               (single_ok_response (Single.content_type_of w fp) content) Hg).
      left. now eexists _, _.
Qed.

(** C6 at a concrete input: GET /index.html HTTP/1.1 on a working transport;
    the page is eleven bytes long. *)
Lemma C6_witness :
  let w := site (request_bytes "GET /index.html HTTP/1.1") in
  (sent (snd (Threaded.handle_client WEB_ROOT w fresh_sock)) = []
   \/ exists head content,
       sent (snd (Threaded.handle_client WEB_ROOT w fresh_sock)) = [head; content]
       /\ content_length_matches head content)
  /\ (sent (snd (Single.serve_connection w fresh_sock)) = []
      \/ exists head content,
          sent (snd (Single.serve_connection w fresh_sock)) = [head; content]
          /\ content_length_matches head content).
Proof.
  apply (C6_content_length_is_body_length WEB_ROOT
           (site (request_bytes "GET /index.html HTTP/1.1"))).
  - intros k. reflexivity.
  - vm_compute. reflexivity.
  - intros p t. cbn [guess_type site]. unfold html_type.
    destruct (endswith_char p 108); [|discriminate].
    intros H. injection H as <-. vm_compute. reflexivity.
Defined.
